(** * EmotionTracker: mood journal and poem store

    A shallow embedding of [mood_tracker.py] (class [MoodTrackerCLI]) and of
    the store-population half of [scrape_poems.py]
    ([init_duckdb], [insert_poems_to_duckdb]), followed by the properties of
    trend detection, input validation, poem selection, remote retrieval and
    the session history.

    Conventions of the embedding.
    - A Python [str] is a [string]; each character stands for the code point
      of the same number (0..255).  Ordering is [String.leb], which is
      Python's code-point-wise lexicographic order on such strings.
    - A Python [int] is a [Z].
    - A call that may raise is a computation in [Py.exn]; a method of the
      session object is a computation in [MoodTracker.M], where the object's
      attributes survive a raised exception, as they do in Python.
    - Screen drawing ([curses]) and [matplotlib] are not modelled: a method
      returns the data it hands to them. *)

From Equations Require Import Equations.
From Stdlib Require Import List ZArith String Ascii Bool Arith Lia Sorted Permutation.
Import ListNotations.

Local Open Scope Z_scope.
Set Warnings "-register-all".

(* ================================================================= *)
(** ** Python values and built-ins *)

Module Py.

(** The exception classes that occur in the two source files.  The subclass
    relation that matters is decided by the [except] clauses, see
    [MoodTracker.fetch_handled]. *)
Inductive exception : Type :=
| RequestException   (* requests: connection error, timeout, HTTP status *)
| JSONDecodeError    (* response.json () on a body that is not JSON *)
| ValueError
| KeyError
| IndexError
| TypeError
| AttributeError
| DuckDBError.       (* duckdb.Error: file is not a database, no such table,
                        value out of range, ... *)

Inductive exn (A : Type) : Type :=
| Ok (a : A)
| Raise (e : exception).
Arguments Ok {A} a.
Arguments Raise {A} e.

Definition bind {A B : Type} (c : exn A) (k : A -> exn B) : exn B :=
  match c with
  | Ok a => k a
  | Raise e => Raise e
  end.

(** [try: c  except <classes>: h] *)
Definition try_except {A : Type} (c : exn A) (handled : exception -> bool)
    (h : exception -> exn A) : exn A :=
  match c with
  | Ok a => Ok a
  | Raise e => if handled e then h e else Raise e
  end.

(** [str.isspace] on the code points below 256: TAB, LF, VT, FF, CR, the
    four separators FS..US, SPACE, NEL and NBSP. *)
Definition is_space (c : ascii) : bool :=
  let n := Z.of_nat (nat_of_ascii c) in
  ((9 <=? n) && (n <=? 13)) || ((28 <=? n) && (n <=? 32))
  || (n =? 133) || (n =? 160).

(** The white space that [int] skips around a numeral: as [is_space], but
    for the four separators FS..US, which [int] does not skip. *)
Definition is_int_space (c : ascii) : bool :=
  let n := Z.of_nat (nat_of_ascii c) in
  ((9 <=? n) && (n <=? 13)) || (n =? 32) || (n =? 133) || (n =? 160).

Fixpoint lstrip_of (space : ascii -> bool) (s : string) : string :=
  match s with
  | EmptyString => EmptyString
  | String c r => if space c then lstrip_of space r else s
  end.

Fixpoint rstrip_of (space : ascii -> bool) (s : string) : string :=
  match s with
  | EmptyString => EmptyString
  | String c r =>
      match rstrip_of space r with
      | EmptyString => if space c then EmptyString else String c EmptyString
      | r' => String c r'
      end
  end.

(** [s.strip ()] *)
Definition strip (s : string) : string :=
  rstrip_of is_space (lstrip_of is_space s).

(** Truth value of a [str]: [not s] holds of the empty string only. *)
Definition str_truthy (s : string) : bool :=
  match s with
  | EmptyString => false
  | String _ _ => true
  end.

Definition digit_value (c : ascii) : option Z :=
  let n := Z.of_nat (nat_of_ascii c) in
  if (48 <=? n) && (n <=? 57) then Some (n - 48) else None.

(** The digit scan of [int (s)] in base 10: decimal digits, with single
    underscores allowed between two digits.  [prev_us] says that the
    previous character was an underscore; the result is the value read and
    the number of digits. *)
Fixpoint scan_digits (s : string) (prev_us : bool) (acc : Z) (ndigits : nat)
  : option (Z * nat) :=
  match s with
  | EmptyString => if prev_us then None else Some (acc, ndigits)
  | String c r =>
      match digit_value c with
      | Some d => scan_digits r false (10 * acc + d) (S ndigits)
      | None =>
          if Ascii.eqb c "_"%char
          then if prev_us then None else scan_digits r true acc ndigits
          else None
      end
  end.

(** CPython's default limit on the digits of a decimal string converted
    to [int] ([sys.int_info.default_max_str_digits]). *)
Definition max_str_digits : nat := 4300.

(** [int (s)] for a [str] argument: surrounding white space is dropped, one
    sign is allowed, the digits follow at once and end the string; anything
    else raises [ValueError]. *)
Definition py_int (s : string) : exn Z :=
  let t := rstrip_of is_int_space (lstrip_of is_int_space s) in
  let '(negative, body) :=
    match t with
    | String "-"%char r => (true, r)
    | String "+"%char r => (false, r)
    | _ => (false, t)
    end in
  match body with
  | EmptyString => Raise ValueError
  | String c _ =>
      match digit_value c with
      | None => Raise ValueError
      | Some _ =>
          match scan_digits body false 0 0 with
          | Some (v, n) =>
              if (n <=? max_str_digits)%nat
              then Ok (if negative then - v else v)
              else Raise ValueError
          | None => Raise ValueError
          end
      end
  end.

(** [l[-n:]] *)
Definition slice_last {A : Type} (n : nat) (l : list A) : list A :=
  skipn (List.length l - n) l.

(** [sorted (l, key=key)] for string keys.  Python's sort is stable, and a
    stable sort has one result, so it is given here by insertion from the
    right: an element is placed before the first element whose key is not
    smaller, hence before every later element with an equal key. *)
Fixpoint insert_by {A : Type} (key : A -> string) (x : A) (l : list A)
  : list A :=
  match l with
  | [] => [x]
  | y :: r =>
      if String.leb (key x) (key y) then x :: l else y :: insert_by key x r
  end.

Fixpoint sorted_by {A : Type} (key : A -> string) (l : list A) : list A :=
  match l with
  | [] => []
  | x :: r => insert_by key x (sorted_by key r)
  end.

(** The order that [sorted (l, key=key)] puts between neighbours. *)
Definition key_le {A : Type} (key : A -> string) (x y : A) : Prop :=
  String.leb (key x) (key y) = true.

End Py.

(* ================================================================= *)
(** ** Decoded JSON, as [response.json ()] returns it *)

Module Json.
Import Py.

(** Numbers are the integers: floating point values are not modelled.  An
    object is the decoded [dict], each key bound once. *)
Inductive json : Type :=
| JNull
| JBool (b : bool)
| JInt (n : Z)
| JStr (s : string)
| JArr (items : list json)
| JObj (fields : list (string * json)).

(** Truth value, as [if v] and [v and ...] test it. *)
Definition truthy (v : json) : bool :=
  match v with
  | JNull => false
  | JBool b => b
  | JInt n => negb (n =? 0)
  | JStr s => str_truthy s
  | JArr items => match items with [] => false | _ :: _ => true end
  | JObj fields => match fields with [] => false | _ :: _ => true end
  end.

(** [len (v)] *)
Definition py_len (v : json) : exn Z :=
  match v with
  | JStr s => Ok (Z.of_nat (String.length s))
  | JArr items => Ok (Z.of_nat (List.length items))
  | JObj fields => Ok (Z.of_nat (List.length fields))
  | JNull | JBool _ | JInt _ => Raise TypeError
  end.

(** [v[0]]: the first item of a list, the first character of a string; a
    [dict] decoded from JSON has string keys only, so the key [0] is
    missing; the other values are not subscriptable. *)
Definition getitem0 (v : json) : exn json :=
  match v with
  | JArr (x :: _) => Ok x
  | JArr [] => Raise IndexError
  | JStr (String c _) => Ok (JStr (String c EmptyString))
  | JStr EmptyString => Raise IndexError
  | JObj _ => Raise KeyError
  | JNull | JBool _ | JInt _ => Raise TypeError
  end.

Fixpoint lookup (key : string) (fields : list (string * json)) : option json :=
  match fields with
  | [] => None
  | (k, v) :: r => if String.eqb k key then Some v else lookup key r
  end.

(** [v.get (key, default)]: only a [dict] has the method. *)
Definition dict_get (v : json) (key : string) (default : json) : exn json :=
  match v with
  | JObj fields =>
      Ok (match lookup key fields with Some x => x | None => default end)
  | _ => Raise AttributeError
  end.

(** [int (v)] *)
Definition int_of (v : json) : exn Z :=
  match v with
  | JInt n => Ok n
  | JBool b => Ok (if b then 1 else 0)
  | JStr s => py_int s
  | JNull | JArr _ | JObj _ => Raise TypeError
  end.

End Json.

(* ================================================================= *)
(** ** The poem store ([scrape_poems.py]) *)

Module ScrapePoems.
Import Py.

(** A row of the table [poems]; the column [created_at] takes its default
    and is never read, it is left out. *)
Record poem_row : Type := mk_row {
  id : Z;
  poem_name : string;
  writer_name : string;
  poem_text : string;
  mood_type : string
}.

(** What a path of the file system holds, as far as DuckDB is concerned:
    nothing, a file that DuckDB cannot open, or a database in which the
    table [poems] is missing ([None]) or has the given rows in insertion
    order. *)
Inductive db_file : Type :=
| NoFile
| NotADatabase
| Database (poems : option (list poem_row)).

Definition filesystem : Type := string -> db_file.

Definition write_file (fs : filesystem) (path : string) (f : db_file)
  : filesystem :=
  fun p => if String.eqb p path then f else fs p.

(** [os.path.exists (path)] *)
Definition path_exists (fs : filesystem) (path : string) : bool :=
  match fs path with
  | NoFile => false
  | _ => true
  end.

(** [duckdb.connect (path)]: a missing file is created as an empty
    database; the connection is represented by the tables it sees. *)
Definition connect (fs : filesystem) (path : string)
  : exn (option (list poem_row)) :=
  match fs path with
  | NoFile => Ok None
  | NotADatabase => Raise DuckDBError
  | Database t => Ok t
  end.

(** [init_duckdb]: connect, then [CREATE TABLE IF NOT EXISTS poems]. *)
Definition init_duckdb (fs : filesystem) (db_path : string)
  : exn (list poem_row) :=
  bind (connect fs db_path) (fun t =>
  Ok (match t with
      | Some rows => rows
      | None => []
      end)).

(** [SELECT COALESCE (MAX (id), 0) FROM poems] *)
Definition max_id (rows : list poem_row) : option Z :=
  match rows with
  | [] => None
  | r :: rest => Some (fold_left Z.max (map id rest) (id r))
  end.

Definition coalesce_max_id (rows : list poem_row) : Z :=
  match max_id rows with
  | Some m => m
  | None => 0
  end.

(** The column [id] is declared [INTEGER], a signed 32-bit value. *)
Definition int32_max : Z := 2147483647.

(** [INSERT INTO poems (id, ...) VALUES (?, ?, ?, ?, ?)].  The key is one
    more than the largest one, so it is fresh and [PRIMARY KEY] holds; the
    four text columns are given, so [NOT NULL] holds; the statement fails
    when the key does not fit the column, which for a key above keys that
    fit can only be at the upper end. *)
Definition insert_row (rows : list poem_row) (r : poem_row)
  : exn (list poem_row) :=
  if id r <=? int32_max then Ok (rows ++ [r]) else Raise DuckDBError.

(** A scraped poem: a [dict] in which each of the three keys may be
    missing. *)
Record poem_dict : Type := mk_poem {
  d_poem_name : option string;
  d_writer_name : option string;
  d_poem_text : option string
}.

(** [d.get (key, "")] *)
Definition get_or_empty (o : option string) : string :=
  match o with
  | Some s => s
  | None => EmptyString
  end.

(** The body of the [for poem in poems] loop; the state is the table and
    the counter [inserted_count] ([failed_count] is only printed). *)
Definition insert_one (mood_type : string) (st : list poem_row * Z)
    (poem : poem_dict) : list poem_row * Z :=
  let '(rows, inserted_count) := st in
  let poem_name := strip (get_or_empty (d_poem_name poem)) in
  let writer_name := strip (get_or_empty (d_writer_name poem)) in
  let poem_text := strip (get_or_empty (d_poem_text poem)) in
  if negb (str_truthy poem_name) || negb (str_truthy writer_name)
     || negb (str_truthy poem_text)
  then (rows, inserted_count)
  else
    let next_id := coalesce_max_id rows + 1 in
    match insert_row rows
            (mk_row next_id poem_name writer_name poem_text mood_type) with
    | Ok rows' => (rows', inserted_count + 1)
    | Raise _ => (rows, inserted_count)
    end.

(** [insert_poems_to_duckdb (poems, mood_type, db_path)]: the number of
    rows inserted and the file system afterwards.  With no poem nothing is
    opened; [init_duckdb] is called outside the [try], so its exception
    leaves the function. *)
Definition insert_poems_to_duckdb (poems : list poem_dict)
    (mood_type : string) (db_path : string) (fs : filesystem)
  : exn (Z * filesystem) :=
  match poems with
  | [] => Ok (0, fs)
  | _ :: _ =>
      bind (init_duckdb fs db_path) (fun rows =>
      let '(rows', inserted_count) :=
        fold_left (insert_one mood_type) poems (rows, 0) in
      Ok (inserted_count, write_file fs db_path (Database (Some rows'))))
  end.

End ScrapePoems.

(* ================================================================= *)
(** ** The session ([mood_tracker.py], class [MoodTrackerCLI]) *)

Module MoodTracker.
Import Py Json ScrapePoems.

(** The attributes of the object that the methods read or write. *)
Record session : Type := mk_session {
  dates : list string;
  moods : list Z;
  current_date : string;
  db_path : string
}.

(** What lies outside the process at the time of a call: the clock, read as
    [datetime.now ().strftime ("%Y-%m-%d")], the files, the draw that
    [ORDER BY RANDOM ()] makes, and the remote poem service, as the reply
    it gives to the n-th request of a call. *)
Inductive response : Type :=
| NoResponse                               (* connection error or timeout *)
| Http (status : Z) (body : option json).  (* [None]: the body is not JSON *)

Record world : Type := mk_world {
  today : string;
  files : filesystem;
  random : nat;
  remote : nat -> response
}.

(** *** Methods: state and exceptions *)

Definition M (A : Type) : Type := session -> exn A * session.

Definition ret {A : Type} (a : A) : M A := fun self => (Ok a, self).

Definition mbind {A B : Type} (c : M A) (k : A -> M B) : M B :=
  fun self =>
    match c self with
    | (Ok a, self') => k a self'
    | (Raise e, self') => (Raise e, self')
    end.

Definition lift {A : Type} (c : exn A) : M A := fun self => (c, self).

Definition get_self : M session := fun self => (Ok self, self).

Definition modify (f : session -> session) : M unit :=
  fun self => (Ok tt, f self).

(** [try: c  except <classes>: h], around a method body. *)
Definition try_with {A : Type} (c : M A) (handled : exception -> bool)
    (h : exception -> M A) : M A :=
  fun self =>
    match c self with
    | (Ok a, self') => (Ok a, self')
    | (Raise e, self') => if handled e then h e self' else (Raise e, self')
    end.

Notation "x <- c ;; k" := (mbind c (fun x => k))
  (at level 61, c at next level, right associativity).
Notation "c ;;; k" := (mbind c (fun _ => k))
  (at level 61, right associativity).

(** [self.dates.append (d)] and [self.moods.append (m)] *)
Definition dates_append (d : string) (self : session) : session :=
  mk_session (dates self ++ [d]) (moods self) (current_date self)
             (db_path self).

Definition moods_append (m : Z) (self : session) : session :=
  mk_session (dates self) (moods self ++ [m]) (current_date self)
             (db_path self).

(** [__init__], up to the call of [run]: the clock is read here. *)
Definition init (w : world) (db_path : string) : session :=
  mk_session [] [] (today w) db_path.

(** *** [get_poem_by_mood] *)

(** The [dict] that [get_poem_by_mood] returns. *)
Record poem : Type := mk_poem_result {
  r_poem_name : string;
  r_writer_name : string;
  r_poem_text : string
}.

Definition poem_of_row (row : poem_row) : poem :=
  mk_poem_result (poem_name row) (writer_name row) (poem_text row).

Definition has_mood (m : string) (row : poem_row) : bool :=
  String.eqb (mood_type row) m.

(** [SELECT ... FROM poems WHERE mood_type = ? ORDER BY RANDOM () LIMIT 1]
    followed by [fetchone ()]: no row when none matches, else the row that
    the draw picks among the matching ones.  Without the table the
    statement fails. *)
Definition select_random (conn : option (list poem_row)) (m : string)
    (draw : nat) : exn (option poem_row) :=
  match conn with
  | None => Raise DuckDBError
  | Some rows =>
      let matching := filter (has_mood m) rows in
      Ok (nth_error matching (draw mod List.length matching))
  end.

Definition any_exception (e : exception) : bool := true.

Definition get_poem_by_mood (w : world) (mood_score : Z) : M (option poem) :=
  self <- get_self ;;
  if negb (path_exists (files w) (db_path self)) then ret None
  else
    try_with
      (conn <- lift (connect (files w) (db_path self)) ;;
       let mood_type := if mood_score >=? 6 then "happy"%string
                        else "sad"%string in
       result <- lift (select_random conn mood_type (random w)) ;;
       match result with
       | Some row => ret (Some (poem_of_row row))
       | None => ret None
       end)
      any_exception
      (fun _ => ret None).

(** *** [check_mood_trends] *)

(** The line that [check_mood_trends] writes: the low-mood message, the
    high-mood message, or nothing. *)
Inductive trend : Type := LowStreak | HighStreak | NoTrend.

Definition check_mood_trends : M trend :=
  self <- get_self ;;
  if (3 <=? List.length (moods self))%nat then
    let last_three_moods := slice_last 3 (moods self) in
    if forallb (fun mood => mood <? 5) last_three_moods then ret LowStreak
    else if forallb (fun mood => mood >? 5) last_three_moods
         then ret HighStreak
         else ret NoTrend
  else ret NoTrend.

(** *** [add_mood_record] *)

(** What [add_mood_record] shows: the added record with its poem and trend
    line, or one of the two rejection messages. *)
Inductive record_outcome : Type :=
| RecordAdded (date : string) (score : Z) (shown : option poem) (t : trend)
| InvalidMoodScore     (* "Invalid mood score! Must be between 1 and 10." *)
| InvalidInput.        (* "Invalid input! Please enter a number ..." *)

(** [except ValueError]: the class and its subclasses. *)
Definition is_ValueError (e : exception) : bool :=
  match e with
  | ValueError | JSONDecodeError => true
  | _ => false
  end.

(** [date_input] and [mood_input] are the two strings that [get_input]
    returned. *)
Definition add_mood_record (w : world) (date_input mood_input : string)
  : M record_outcome :=
  self <- get_self ;;
  let date_input :=
    if negb (str_truthy date_input) then current_date self
    else date_input in
  try_with
    (mood_score <- lift (py_int mood_input) ;;
     if (1 <=? mood_score) && (mood_score <=? 10) then
       modify (dates_append date_input) ;;;
       modify (moods_append mood_score) ;;;
       shown <- get_poem_by_mood w mood_score ;;
       t <- check_mood_trends ;;
       ret (RecordAdded date_input mood_score shown t)
     else ret InvalidMoodScore)
    is_ValueError
    (fun _ => ret InvalidInput).

(** The scores that the test [1 <= mood_score <= 10] lets through. *)
Definition in_range (m : Z) : Prop := 1 <= m <= 10.

(** *** [view_mood_records] and [plot_mood_chart] *)

Inductive records_view : Type :=
| NoRecordsToDisplay
| RecordLines (shown : list (string * Z)).

Definition list_truthy {A : Type} (l : list A) : bool :=
  match l with
  | [] => false
  | _ :: _ => true
  end.

Definition view_mood_records : M records_view :=
  self <- get_self ;;
  if negb (list_truthy (dates self)) then ret NoRecordsToDisplay
  else ret (RecordLines (combine (dates self) (moods self))).

(** What [plot_mood_chart] hands to [plt.plot]: nothing, after the message
    "No records to display!", or the two coordinate sequences. *)
Inductive chart : Type :=
| NothingToPlot
| Plot (sorted_dates : list string) (sorted_moods : list Z).

Definition plot_mood_chart : M chart :=
  self <- get_self ;;
  if negb (list_truthy (dates self)) || negb (list_truthy (moods self))
  then ret NothingToPlot
  else
    let sorted_dates_moods :=
      sorted_by fst (combine (dates self) (moods self)) in
    match sorted_dates_moods with
    | [] => lift (Raise ValueError)       (* unpacking [zip ( * [])] *)
    | _ :: _ =>
        let '(sorted_dates, sorted_moods) := split sorted_dates_moods in
        ret (Plot sorted_dates sorted_moods)
    end.

(** The points of the line drawn, in the order in which they are drawn. *)
Definition chart_points (c : chart) : list (string * Z) :=
  match c with
  | NothingToPlot => []
  | Plot sorted_dates sorted_moods => combine sorted_dates sorted_moods
  end.

(** *** [get_random_poem] *)

(** [requests.get (url, timeout=5)] *)
Definition requests_get (r : response) : exn (Z * option json) :=
  match r with
  | NoResponse => Raise RequestException
  | Http status body => Ok (status, body)
  end.

(** [response.raise_for_status ()]: the 4xx and 5xx codes raise
    [HTTPError], a [RequestException]. *)
Definition raise_for_status (status : Z) : exn unit :=
  if (400 <=? status) && (status <? 600) then Raise RequestException
  else Ok tt.

(** [response.json ()] *)
Definition response_json (body : option json) : exn json :=
  match body with
  | Some v => Ok v
  | None => Raise JSONDecodeError
  end.

(** The [dict] that [get_random_poem] returns. *)
Record fetched_poem : Type := mk_fetched {
  title : json;
  author : json;
  lines : json
}.

(** The statements of the [try] block up to, and without, [attempts += 1]:
    a poem when the function returns one, [None] when control falls
    through to the increment. *)
Definition try_block (r : response) : exn (option fetched_poem) :=
  bind (requests_get r) (fun resp =>
  bind (raise_for_status (fst resp)) (fun _ =>
  bind (response_json (snd resp)) (fun poems =>
  bind (if truthy poems
        then bind (py_len poems) (fun n => Ok (n >? 0))
        else Ok false) (fun nonempty =>
  if nonempty : bool then
    bind (getitem0 poems) (fun poem =>
    bind (dict_get poem "linecount" (JInt 0)) (fun raw =>
    bind (int_of raw) (fun linecount =>
    if linecount <? 1000 then
      bind (dict_get poem "title" (JStr "Untitled")) (fun t =>
      bind (dict_get poem "author" (JStr "Unknown")) (fun a =>
      bind (dict_get poem "lines" (JArr [])) (fun l =>
      Ok (Some (mk_fetched t a l)))))
    else Ok None)))
  else Ok None)))).

Definition max_attempts : nat := 20.

(** [except (requests.RequestException, json.JSONDecodeError, ValueError,
    KeyError)] *)
Definition fetch_handled (e : exception) : bool :=
  match e with
  | RequestException | JSONDecodeError | ValueError | KeyError => true
  | IndexError | TypeError | AttributeError | DuckDBError => false
  end.

(** The [while attempts < max_attempts] loop.  [sent] counts the requests
    made so far; it is not a variable of the source, and is returned next
    to the result. *)
Equations? fetch_loop (net : nat -> response) (attempts sent : nat)
  : exn (option fetched_poem) * nat by wf (max_attempts - attempts)%nat lt :=
fetch_loop net attempts sent with lt_dec attempts max_attempts := {
  | right _ => (Ok None, sent)
  | left _ with try_block (net sent) := {
      | Ok (Some p) => (Ok (Some p), S sent)
      | Ok None => fetch_loop net (attempts + 1) (S sent)
      | Raise e with fetch_handled e := {
          | false => (Raise e, S sent)
          | true with le_dec max_attempts (attempts + 1) := {
              | left _ => (Ok None, S sent)
              | right _ => fetch_loop net (attempts + 1) (S sent) } } } }.
Proof.
  all: change (max_attempts - (attempts + 1) < max_attempts - attempts)%nat;
    lia.
Qed.

Definition get_random_poem (w : world) : M (option fetched_poem) :=
  lift (fst (fetch_loop (remote w) 0 0)).

(** The number of requests that a call of [get_random_poem] makes. *)
Definition requests_made (w : world) : nat :=
  snd (fetch_loop (remote w) 0 0).

Definition show_inspirations (w : world) : M (option fetched_poem) :=
  get_random_poem w.

(** *** [run] *)

(** A key read by the menu, with the two lines typed after the key 1. *)
Inductive choice : Type :=
| Key1 (date_input mood_input : string)
| Key2
| Key3
| Key4
| Key5
| OtherKey.

(** One turn of the [while True] loop, for a key other than 5. *)
Definition turn (w : world) (c : choice) : M unit :=
  match c with
  | Key1 date_input mood_input =>
      add_mood_record w date_input mood_input ;;; ret tt
  | Key2 => view_mood_records ;;; ret tt
  | Key3 => plot_mood_chart ;;; ret tt
  | Key4 => show_inspirations w ;;; ret tt
  | Key5 | OtherKey => ret tt
  end.

(** The loop on the keys typed, each with the world at that time; it ends
    at the key 5, and here also with the keys. *)
Fixpoint run (keys : list (world * choice)) : M unit :=
  match keys with
  | [] => ret tt
  | (_, Key5) :: _ => ret tt
  | (w, c) :: rest => turn w c ;;; run rest
  end.

(** [MoodTrackerCLI (stdscr, db_path)]: the constructor ends in [run]. *)
Definition MoodTrackerCLI (w : world) (db_path : string)
    (keys : list (world * choice)) : exn unit * session :=
  run keys (init w db_path).

End MoodTracker.

(* ================================================================= *)
(** ** Sample worlds *)

Module Sample.
Import ScrapePoems MoodTracker.

(** The world on 1 March 2024: two poems in the store, no network. *)
Definition march_1 : world :=
  mk_world "2024-03-01"
    (fun _ => Database (Some
       [mk_row 1 "Daffodils" "Wordsworth" "I wandered" "happy";
        mk_row 2 "Dirge" "Shelley" "Rough wind" "sad"]))
    3 (fun _ => NoResponse).

(** The same store on the next day. *)
Definition march_2 : world :=
  mk_world "2024-03-02" (files march_1) 8 (fun _ => NoResponse).

End Sample.

(* ================================================================= *)
(** ** Insertion of a batch ([scrape_poems.py]) *)

Module Batch.
Import Py ScrapePoems.

(** The three fields of a scraped poem as [insert_poems_to_duckdb] reads
    them: [poem.get (key, "").strip ()]. *)
Definition field_name (p : poem_dict) : string :=
  strip (get_or_empty (d_poem_name p)).

Definition field_writer (p : poem_dict) : string :=
  strip (get_or_empty (d_writer_name p)).

Definition field_text (p : poem_dict) : string :=
  strip (get_or_empty (d_poem_text p)).

(** The poems that pass the test [if not poem_name or not writer_name or
    not poem_text]. *)
Definition complete (p : poem_dict) : bool :=
  str_truthy (field_name p) && str_truthy (field_writer p)
  && str_truthy (field_text p).

(** The rows that a run of complete poems becomes when the keys are given
    out one after the other from [next_id]. *)
Fixpoint rows_from (next_id : Z) (mood_type : string) (ps : list poem_dict)
  : list poem_row :=
  match ps with
  | [] => []
  | p :: rest =>
      mk_row next_id (field_name p) (field_writer p) (field_text p) mood_type
      :: rows_from (next_id + 1) mood_type rest
  end.

End Batch.

(* ================================================================= *)
(** ** The keyboard ([mood_tracker.py], [get_input] and the menu loop) *)

Module Terminal.
Import Py ScrapePoems MoodTracker.

(** The keys are the values that the successive calls of
    [self.stdscr.getch ()] return.  When they are used up the call does
    not return: the session waits. *)

(** [chr (char)] for a code from 0 to 255. *)
Definition chr (char : Z) : string :=
  String (ascii_of_nat (Z.to_nat char)) EmptyString.

(** [input_str[:-1]] *)
Fixpoint drop_last (s : string) : string :=
  match s with
  | EmptyString => EmptyString
  | String c EmptyString => EmptyString
  | String c r => String c (drop_last r)
  end.

(** The [while len (input_str) < max_length] loop of [get_input], from the
    text typed so far: the text entered and the keys left, or [None] when
    the keys are used up first. *)
Fixpoint get_input_loop (keys : list Z) (max_length : Z) (input_str : string)
  : option (string * list Z) :=
  if Z.of_nat (String.length input_str) <? max_length then
    match keys with
    | [] => None
    | char :: rest =>
        if (char =? 10) || (char =? 13) then Some (input_str, rest)
        else if (char =? 127) || (char =? 8) then
          if Z.of_nat (String.length input_str) >? 0
          then get_input_loop rest max_length (drop_last input_str)
          else get_input_loop rest max_length input_str
        else if (32 <=? char) && (char <=? 126)
        then get_input_loop rest max_length (input_str ++ chr char)
        else get_input_loop rest max_length input_str
    end
  else Some (input_str, keys).

(** [get_input (y, x, max_length)] *)
Definition get_input (keys : list Z) (max_length : Z)
  : option (string * list Z) :=
  get_input_loop keys max_length EmptyString.

(** The keys that [get_input] takes for characters of the text. *)
Definition printable (char : Z) : bool := (32 <=? char) && (char <=? 126).

(** The text that a run of such keys spells. *)
Fixpoint typed (chars : list Z) : string :=
  match chars with
  | [] => EmptyString
  | char :: rest => String (ascii_of_nat (Z.to_nat char)) (typed rest)
  end.

(** Every character of a text has a code from 32 to 126. *)
Fixpoint all_printable (s : string) : bool :=
  match s with
  | EmptyString => true
  | String c r => printable (Z.of_nat (nat_of_ascii c)) && all_printable r
  end.

(** How far a method got on the keys it was given: it returned, with the
    keys left; it waits for a key; or it left with an exception. *)
Inductive progress : Type :=
| Returned (rest : list Z)
| Waiting
| Crashed (e : exception).

(** [self.stdscr.getch ()] used as "wait for a key press". *)
Definition press_any_key (keys : list Z) : progress :=
  match keys with
  | [] => Waiting
  | _ :: rest => Returned rest
  end.

(** A method body followed by the wait for a key. *)
Definition then_wait {A : Type} (r : exn A * session) (keys : list Z)
  : progress * session :=
  match r with
  | (Ok _, self') => (press_any_key keys, self')
  | (Raise e, self') => (Crashed e, self')
  end.

(** [add_mood_record], with its two calls of [get_input]: ten characters
    for the date, two for the score. *)
Definition add_mood_record_io (w : world) (keys : list Z) (self : session)
  : progress * session :=
  match get_input keys 10 with
  | None => (Waiting, self)
  | Some (date_input, keys1) =>
      match get_input keys1 2 with
      | None => (Waiting, self)
      | Some (mood_input, keys2) =>
          then_wait (add_mood_record w date_input mood_input self) keys2
      end
  end.

(** [plot_mood_chart]: the message is followed by the wait for a key, the
    chart by [plt.show ()], which reads no key. *)
Definition plot_mood_chart_io (keys : list Z) (self : session)
  : progress * session :=
  match plot_mood_chart self with
  | (Ok NothingToPlot, self') => (press_any_key keys, self')
  | (Ok (Plot _ _), self') => (Returned keys, self')
  | (Raise e, self') => (Crashed e, self')
  end.

(** How [run] ended: at the key 5, waiting for a key, or with an
    exception. *)
Inductive ending : Type :=
| Exited (rest : list Z)
| AwaitingKey
| Died (e : exception).

(** The [while True] loop of [run] on the keys typed.  [world_at n] is the
    world when [n] keys are still to come.  Every turn reads the key of the
    menu, so [fuel] turns are enough for [fuel] keys; [None] says that the
    fuel given was not. *)
Fixpoint run_io (fuel : nat) (world_at : nat -> world) (keys : list Z)
    (self : session) : option (ending * session) :=
  match keys with
  | [] => Some (AwaitingKey, self)
  | choice :: rest =>
      let w := world_at (List.length rest) in
      let after (r : progress * session) :=
        match r with
        | (Returned rest', self') =>
            match fuel with
            | O => None
            | S fuel' => run_io fuel' world_at rest' self'
            end
        | (Waiting, self') => Some (AwaitingKey, self')
        | (Crashed e, self') => Some (Died e, self')
        end in
      if choice =? 49 then after (add_mood_record_io w rest self)
      else if choice =? 50 then after (then_wait (view_mood_records self) rest)
      else if choice =? 51 then after (plot_mood_chart_io rest self)
      else if choice =? 52 then after (then_wait (show_inspirations w self) rest)
      else if choice =? 53 then Some (Exited rest, self)
      else after (press_any_key rest, self)
  end.

(** How a method with its reads of the keyboard stands to a turn of the
    loop of [MoodTracker.run]: the same object afterwards, the same
    exception if any, and no more keys left than it was given. *)
Definition agrees (given : list Z) (r : progress * session)
    (t : exn unit * session) : Prop :=
  match fst r with
  | Returned rest =>
      t = (Ok tt, snd r) /\ (List.length rest <= List.length given)%nat
  | Waiting => t = (Ok tt, snd r)
  | Crashed e => t = (Raise e, snd r)
  end.

(** [MoodTrackerCLI (stdscr, db_path)] on the keys typed. *)
Definition session_io (world_at : nat -> world) (db_path : string)
    (keys : list Z) : option (ending * session) :=
  run_io (List.length keys) world_at keys
    (init (world_at (List.length keys)) db_path).

End Terminal.

(* ================================================================= *)
(** ** The scraper ([scrape_poems.py], [scrape_poem_analysis]) *)

Module Scraper.
Import Py ScrapePoems.

(** The page is taken as fetched and parsed: an element of the tree stands
    for the answers to the queries that the function makes on it. *)

(** An [h6] of class [poet-name]: its [text_content ()] and that of each
    [.//a] below it. *)
Record poet_elem : Type := mk_poet {
  poet_text : string;
  poet_links : list string
}.

(** A [header]: the [text_content ()] of each
    [.//h2[@class="entry-title"]/a], and each [.//h6[@class="poet-name"]]. *)
Record header_elem : Type := mk_header {
  title_links : list string;
  poet_names : list poet_elem
}.

(** A [blockquote]: the [text_content ()] of each [.//p]. *)
Definition blockquote_elem : Type := list string.

(** The tree: for each id that starts with "post-", in order, the headers
    and the blockquotes found under it; and the headers of class
    [entry-header] and the blockquotes of class [entry-quote] of the whole
    page. *)
Record tree : Type := mk_tree {
  posts : list (list header_elem * list blockquote_elem);
  all_headers : list header_elem;
  all_blockquotes : list blockquote_elem
}.

(** The outcome of [requests.get] and [raise_for_status]: the message of
    the [RequestException], or the page. *)
Inductive page : Type :=
| FetchFailed (message : string)
| Fetched (t : tree).

(** The [dict] returned: [{"error": ...}] or [{"poems": [...]}]. *)
Inductive results : Type :=
| Error (message : string)
| Poems (poems : list poem_dict).

Fixpoint skip (n : nat) (s : string) : string :=
  match n, s with
  | O, _ => s
  | S n', String _ r => skip n' r
  | S _, EmptyString => EmptyString
  end.

(** [s.split (sep, 1)[1]] when [sep in s]: what follows the first
    occurrence of [sep]; [None] when [sep] does not occur. *)
Fixpoint after_first (sep s : string) : option string :=
  if String.prefix sep s then Some (skip (String.length sep) s)
  else match s with
       | EmptyString => None
       | String _ r => after_first sep r
       end.

Definition extract_poem_name (header : header_elem) : string :=
  match title_links header with
  | [] => EmptyString
  | a :: _ => strip a
  end.

Definition extract_writer_name (header : header_elem) : string :=
  match poet_names header with
  | [] => EmptyString
  | poet :: _ =>
      let full_text := strip (poet_text poet) in
      match poet_links poet with
      | link :: _ => strip link
      | [] =>
          match after_first "by " full_text with
          | Some rest => strip rest
          | None => full_text
          end
      end
  end.

(** The lines of the [p] elements, stripped, the empty ones left out,
    joined by line feeds. *)
Definition extract_poem_text (blockquote : blockquote_elem) : string :=
  String.concat (String "010"%char EmptyString)
    (filter str_truthy (map strip blockquote)).

(** [if poem_name and writer_name and poem_text: results["poems"].append] *)
Definition poem_if_whole (poem_name writer_name poem_text : string)
  : option poem_dict :=
  if str_truthy poem_name && str_truthy writer_name && str_truthy poem_text
  then Some (mk_poem (Some poem_name) (Some writer_name) (Some poem_text))
  else None.

(** [for blockquote in blockquotes: ... break]: the first blockquote that
    makes the poem whole. *)
Fixpoint first_whole (poem_name writer_name : string)
    (blockquotes : list blockquote_elem) : option poem_dict :=
  match blockquotes with
  | [] => None
  | blockquote :: rest =>
      match poem_if_whole poem_name writer_name
              (extract_poem_text blockquote) with
      | Some poem => Some poem
      | None => first_whole poem_name writer_name rest
      end
  end.

Definition to_list {A : Type} (o : option A) : list A :=
  match o with
  | Some a => [a]
  | None => []
  end.

(** The loop over the posts, the headers of each and its blockquotes. *)
Definition by_post (t : tree) : list poem_dict :=
  flat_map
    (fun post =>
       flat_map
         (fun header =>
            to_list (first_whole (extract_poem_name header)
                       (extract_writer_name header) (snd post)))
         (fst post))
    (posts t).

(** [for i, header in enumerate (all_headers)], from the index [i]. *)
Fixpoint by_position (i : nat) (headers : list header_elem)
    (blockquotes : list blockquote_elem) : list poem_dict :=
  match headers with
  | [] => []
  | header :: rest =>
      (if (i <? List.length blockquotes)%nat then
         match nth_error blockquotes i with
         | Some blockquote =>
             to_list (poem_if_whole (extract_poem_name header)
                        (extract_writer_name header)
                        (extract_poem_text blockquote))
         | None => []
         end
       else [])
      ++ by_position (S i) rest blockquotes
  end.

Definition scrape_poem_analysis (p : page) : results :=
  match p with
  | FetchFailed message => Error ("Failed to fetch URL: " ++ message)
  | Fetched t =>
      match by_post t with
      | [] => Poems (by_position 0 (all_headers t) (all_blockquotes t))
      | poems => Poems poems
      end
  end.

(** A text that is empty or starts with a character that is no white
    space. *)
Definition starts_clean (s : string) : Prop :=
  match s with
  | EmptyString => True
  | String c _ => is_space c = false
  end.

(** The row of a poem, read back as the [dict] it came from. *)
Definition dict_of_row (r : poem_row) : poem_dict :=
  mk_poem (Some (poem_name r)) (Some (writer_name r)) (Some (poem_text r)).

(** A text that [strip] leaves as it is. *)
Definition stripped (s : string) : Prop := strip s = s.

(** What is asked of a scraped poem: the three keys are present, and
    their values are not empty and have no white space around them. *)
Definition whole (p : poem_dict) : Prop :=
  exists poem_name writer_name poem_text,
    p = mk_poem (Some poem_name) (Some writer_name) (Some poem_text) /\
    poem_name <> EmptyString /\ writer_name <> EmptyString /\
    poem_text <> EmptyString /\
    stripped poem_name /\ stripped writer_name /\ stripped poem_text.

(** A page without posts: three headers and two blockquotes. *)
Definition sample_page : page :=
  Fetched (mk_tree []
    [mk_header ["A"%string] [mk_poet "Poet" ["Link "%string; "z"%string]];
     mk_header ["B"%string] [mk_poet "Written by Me" []];
     mk_header ["C"%string] []]
    [["l1"%string]; ["l2"%string; "l3"%string]]).

End Scraper.

(* ================================================================= *)
(** ** The poem on the screen ([mood_tracker.py], [display_poem]) *)

Module Display.
Import Py MoodTracker.

(** The size of the terminal: [curses.LINES] and [curses.COLS]. *)
Record screen : Type := mk_screen {
  LINES : Z;
  COLS : Z
}.

(** A call [self.stdscr.addstr (y, x, text, ...)].  The calls are taken to
    succeed; what [curses] does with a position outside the window is not
    modelled. *)
Record write : Type := AddStr {
  at_y : Z;
  at_x : Z;
  text : string
}.

(** [c * n] for a one-character string. *)
Definition times (c : ascii) (n : Z) : string :=
  string_of_list_ascii (repeat c (Z.to_nat n)).

(** [s.split (sep)] for a separator of one character. *)
Fixpoint split_on (sep : ascii) (s : string) : list string :=
  match s with
  | EmptyString => [EmptyString]
  | String c r =>
      if Ascii.eqb c sep then EmptyString :: split_on sep r
      else match split_on sep r with
           | h :: t => String c h :: t
           | [] => [String c EmptyString]
           end
  end.

Fixpoint take (n : nat) (s : string) : string :=
  match n, s with
  | S n', String c r => String c (take n' r)
  | _, _ => EmptyString
  end.

(** [s[:k]]: the first [k] characters, or all but the last [-k]. *)
Definition slice_to (k : Z) (s : string) : string :=
  if k >=? 0 then take (Z.to_nat k) s
  else take (Z.to_nat (Z.of_nat (String.length s) + k)) s.

(** The line as drawn: cut, with three dots, when it is longer than
    [max_width]. *)
Definition display_line (max_width : Z) (poem_line : string) : string :=
  if Z.of_nat (String.length poem_line) >? max_width
  then (slice_to (max_width - 3) poem_line ++ "...")%string
  else poem_line.

(** [for char in display_line: addstr (current_line, x_pos, char)] *)
Fixpoint typewriter (current_line x_pos : Z) (s : string) : list write :=
  match s with
  | EmptyString => []
  | String c r =>
      AddStr current_line x_pos (String c EmptyString)
      :: typewriter current_line (x_pos + 1) r
  end.

(** [for poem_line in poem_lines], from the line [current_line] with
    [lines_displayed] lines drawn: the calls made and the line reached. *)
Fixpoint draw_lines (scr : screen) (max_lines : Z) (poem_lines : list string)
    (current_line lines_displayed : Z) : list write * Z :=
  match poem_lines with
  | [] => ([], current_line)
  | poem_line :: rest =>
      if lines_displayed >=? max_lines then ([], current_line)
      else if current_line >=? LINES scr - 2 then ([], current_line)
      else
        let max_width := COLS scr - 2 in
        let '(later, reached) :=
          draw_lines scr max_lines rest (current_line + 1)
            (lines_displayed + 1) in
        (typewriter current_line 1 (display_line max_width poem_line)
         ++ later, reached)
  end.

(** [display_poem (poem, start_line, max_lines, separator_length)]: the
    calls of [addstr], in order, and the value returned. *)
Definition display_poem (scr : screen) (p : option poem) (start_line : Z)
    (max_lines separator_length : Z) : list write * Z :=
  match p with
  | None =>
      ([AddStr start_line 1 "No poem found in database for this mood."],
       start_line + 1)
  | Some p =>
      let poem_text := r_poem_text p in
      let poem_lines :=
        if str_truthy poem_text then split_on "010"%char poem_text else [] in
      let '(drawn, reached) :=
        draw_lines scr max_lines poem_lines (start_line + 4) 0 in
      ([AddStr start_line 1 (times "-"%char separator_length);
        AddStr (start_line + 1) 1 ("Poem: " ++ r_poem_name p);
        AddStr (start_line + 2) 1 ("By: " ++ r_writer_name p);
        AddStr (start_line + 3) 1 ""] ++ drawn,
       reached)
  end.

(** The calls that draw the given lines, one line of the screen each,
    from the line [current_line] down. *)
Fixpoint rows_of (scr : screen) (current_line : Z) (poem_lines : list string)
  : list write :=
  match poem_lines with
  | [] => []
  | poem_line :: rest =>
      typewriter current_line 1 (display_line (COLS scr - 2) poem_line)
      ++ rows_of scr (current_line + 1) rest
  end.

(** The lines of the text of a poem, as [display_poem] splits it. *)
Definition lines_of (p : poem) : list string :=
  if str_truthy (r_poem_text p) then split_on "010"%char (r_poem_text p)
  else [].

End Display.

(* ================================================================= *)
(** ** More sample worlds *)

Module MoreSamples.
Import Json ScrapePoems MoodTracker.

(** A service that times out, then offers a poem of 2000 lines, then a
    sonnet. *)
Definition sonnet_world : world :=
  mk_world "2024-03-01" (fun _ => NoFile) 0
    (fun j => match j with
              | 0%nat => NoResponse
              | 1%nat =>
                  Http 200 (Some (JArr [JObj [("linecount"%string,
                                               JStr "2000")]]))
              | _ =>
                  Http 200 (Some (JArr [JObj [("title"%string,
                                               JStr "Sonnet 18");
                                              ("linecount"%string,
                                               JStr "14")]]))
              end).

End MoreSamples.

(* ================================================================= *)
(** * Properties *)

Import Py Json ScrapePoems MoodTracker Sample.

(** ** Trend detection *)

Section Trend.

Lemma slice_last_app {A : Type} (p t : list A) :
  slice_last (List.length t) (p ++ t) = t.
Proof.
  unfold slice_last.
  rewrite length_app, Nat.add_sub, skipn_app, Nat.sub_diag.
  rewrite skipn_all. reflexivity.
Qed.

Lemma slice_last_three {A : Type} (p : list A) (a b c : A) :
  slice_last 3 (p ++ [a; b; c]) = [a; b; c].
Proof. exact (slice_last_app p [a; b; c]). Qed.

Lemma last_three_split {A : Type} (l : list A) :
  (3 <= List.length l)%nat -> exists p a b c, l = p ++ [a; b; c].
Proof.
  intros Hlen.
  pose proof (firstn_skipn (List.length l - 3) l) as Hsplit.
  pose proof (length_skipn (List.length l - 3) l) as Hk.
  destruct (skipn (List.length l - 3) l) as [|a [|b [|c [|d t]]]];
    simpl in Hk; try lia.
  exists (firstn (List.length l - 3) l), a, b, c. now symmetry.
Qed.

Lemma length_app_three {A : Type} (p : list A) (a b c : A) :
  (3 <= List.length (p ++ [a; b; c]))%nat.
Proof. rewrite length_app. simpl. lia. Qed.

Lemma check_mood_trends_app (p : list Z) (a b c : Z) (d : list string)
    (cd path : string) :
  let self := mk_session d (p ++ [a; b; c]) cd path in
  check_mood_trends self =
  (Ok (if (a <? 5) && (b <? 5) && (c <? 5) then LowStreak
       else if (a >? 5) && (b >? 5) && (c >? 5) then HighStreak
       else NoTrend), self).
Proof.
  intros self. unfold check_mood_trends, mbind, get_self, ret.
  subst self. cbn [moods].
  pose proof (length_app_three p a b c) as Hlen.
  apply Nat.leb_le in Hlen. rewrite Hlen.
  rewrite slice_last_three. cbn [forallb].
  rewrite !andb_true_r.
  destruct (a <? 5), (b <? 5), (c <? 5), (a >? 5), (b >? 5), (c >? 5);
    reflexivity.
Qed.

Lemma check_mood_trends_short (self : session) :
  (List.length (moods self) < 3)%nat ->
  check_mood_trends self = (Ok NoTrend, self).
Proof.
  intros Hlen. unfold check_mood_trends, mbind, get_self, ret.
  apply Nat.leb_gt in Hlen. now rewrite Hlen.
Qed.

(** The trend line is a function of the scores alone: it never raises and
    leaves the object as it was. *)
Lemma check_mood_trends_total (self : session) :
  exists t, check_mood_trends self = (Ok t, self).
Proof.
  unfold check_mood_trends, mbind, get_self, ret.
  destruct (3 <=? List.length (moods self))%nat; [|now eexists].
  destruct (forallb _ _); [now eexists|].
  destruct (forallb _ _); now eexists.
Qed.

(** C1.  [check_mood_trends] looks at the last three scores, in insertion
    order, and at nothing else.  It reports a low streak exactly when there
    are at least three scores and the last three are all below 5, a high
    streak exactly when there are at least three and the last three are all
    above 5, and nothing in every other case: with fewer than three
    scores, and whenever one of the last three is 5. *)
Theorem check_mood_trends_spec (self : session) :
  exists t : trend,
    check_mood_trends self = (Ok t, self) /\
    (t = LowStreak <->
       exists p a b c, moods self = p ++ [a; b; c] /\ a < 5 /\ b < 5 /\ c < 5) /\
    (t = HighStreak <->
       exists p a b c, moods self = p ++ [a; b; c] /\ a > 5 /\ b > 5 /\ c > 5) /\
    (t = NoTrend <->
       ~ (exists p a b c,
            moods self = p ++ [a; b; c] /\ a < 5 /\ b < 5 /\ c < 5) /\
       ~ (exists p a b c,
            moods self = p ++ [a; b; c] /\ a > 5 /\ b > 5 /\ c > 5)) /\
    ((List.length (moods self) < 3)%nat -> t = NoTrend) /\
    (forall p a b c, moods self = p ++ [a; b; c] ->
       a = 5 \/ b = 5 \/ c = 5 -> t = NoTrend) /\
    (forall other : session,
       slice_last 3 (moods other) = slice_last 3 (moods self) ->
       (3 <= List.length (moods other))%nat ->
       (3 <= List.length (moods self))%nat ->
       fst (check_mood_trends other) = Ok t).
Proof.
  assert (Happ : forall (p q : list Z) a b c a' b' c',
             p ++ [a; b; c] = q ++ [a'; b'; c'] ->
             a = a' /\ b = b' /\ c = c').
  { intros p q a b c a' b' c' H.
    apply (f_equal (slice_last 3)) in H.
    rewrite !slice_last_three in H.
    now inversion H. }
  destruct (le_lt_dec 3 (List.length (moods self))) as [Hlen | Hlen].
  - destruct (last_three_split _ Hlen) as (p & a & b & c & Hm).
    destruct self as [d m cd path]; simpl in *; subst m.
    eexists; split; [apply check_mood_trends_app|].
    assert (Hlow : (a <? 5) && (b <? 5) && (c <? 5) = true <->
                   a < 5 /\ b < 5 /\ c < 5).
    { rewrite !andb_true_iff, !Z.ltb_lt. tauto. }
    assert (Hhigh : (a >? 5) && (b >? 5) && (c >? 5) = true <->
                    a > 5 /\ b > 5 /\ c > 5).
    { rewrite !andb_true_iff, !Z.gtb_gt. tauto. }
    assert (Hl : (exists p' a' b' c',
                    p ++ [a; b; c] = p' ++ [a'; b'; c'] /\
                    a' < 5 /\ b' < 5 /\ c' < 5) <-> a < 5 /\ b < 5 /\ c < 5).
    { split.
      - intros (p' & a' & b' & c' & He & H).
        apply Happ in He. destruct He as (-> & -> & ->). exact H.
      - intros H. now exists p, a, b, c. }
    assert (Hh : (exists p' a' b' c',
                    p ++ [a; b; c] = p' ++ [a'; b'; c'] /\
                    a' > 5 /\ b' > 5 /\ c' > 5) <-> a > 5 /\ b > 5 /\ c > 5).
    { split.
      - intros (p' & a' & b' & c' & He & H).
        apply Happ in He. destruct He as (-> & -> & ->). exact H.
      - intros H. now exists p, a, b, c. }
    rewrite Hl, Hh.
    destruct ((a <? 5) && (b <? 5) && (c <? 5)) eqn:El;
      destruct ((a >? 5) && (b >? 5) && (c >? 5)) eqn:Eh;
      rewrite ?andb_true_iff, ?andb_false_iff, ?Z.ltb_lt, ?Z.ltb_ge,
        ?Z.gtb_gt in El, Eh;
      try lia.
    all: repeat split; try (intros; discriminate); try (intros; lia);
      try tauto.
    all: try (rewrite length_app; simpl; intros; lia).
    all: try (intros q a' b' c' He; apply Happ in He; intros; lia).
    all: intros [d' m' cd' path'] Hs Hl' _; simpl in *;
      destruct (last_three_split _ Hl') as (q & x & y & z & ->);
      rewrite !slice_last_three in Hs;
      inversion Hs; subst;
      rewrite check_mood_trends_app; simpl;
      destruct ((a <? 5) && (b <? 5) && (c <? 5)) eqn:El';
      destruct ((a >? 5) && (b >? 5) && (c >? 5)) eqn:Eh';
      rewrite ?andb_true_iff, ?andb_false_iff, ?Z.ltb_lt, ?Z.ltb_ge,
        ?Z.gtb_gt in El', Eh';
      try reflexivity; lia.
  - exists NoTrend. split; [now apply check_mood_trends_short|].
    assert (Hno : forall P : Z -> Z -> Z -> Prop,
               ~ (exists p a b c, moods self = p ++ [a; b; c] /\ P a b c)).
    { intros P (p & a & b & c & He & _).
      rewrite He, length_app in Hlen. simpl in Hlen. lia. }
    repeat split; try discriminate; try (intros; reflexivity).
    + intros H. exfalso. apply (Hno (fun a b c => a < 5 /\ b < 5 /\ c < 5)), H.
    + intros H. exfalso. apply (Hno (fun a b c => a > 5 /\ b > 5 /\ c > 5)), H.
    + apply (Hno (fun a b c => a < 5 /\ b < 5 /\ c < 5)).
    + apply (Hno (fun a b c => a > 5 /\ b > 5 /\ c > 5)).
    + intros other _ _ H. lia.
Qed.

End Trend.

(** ** Poem selection from the store *)

Section PoemStore.

Local Open Scope string_scope.
Local Open Scope Z_scope.

(** What [get_poem_by_mood] comes to, case by case on the file behind
    [db_path]. *)
Lemma get_poem_by_mood_eq (w : world) (mood_score : Z) (self : session) :
  get_poem_by_mood w mood_score self =
  (Ok match files w (db_path self) with
      | Database (Some rows) =>
          let matching :=
            filter (has_mood (if mood_score >=? 6 then "happy" else "sad"))
                   rows in
          option_map poem_of_row
            (nth_error matching (random w mod List.length matching))
      | _ => None
      end, self).
Proof.
  unfold get_poem_by_mood, mbind, get_self, try_with, lift, ret,
    path_exists, connect, select_random.
  destruct (files w (db_path self)) as [| | [rows|]]; cbn; try reflexivity.
  destruct (nth_error _ _); reflexivity.
Qed.

Lemma get_poem_by_mood_total (w : world) (mood_score : Z) (self : session) :
  exists res, get_poem_by_mood w mood_score self = (Ok res, self).
Proof. rewrite get_poem_by_mood_eq. now eexists. Qed.

Lemma nth_error_filter_In {A : Type} (f : A -> bool) (l : list A) (n : nat)
    (x : A) :
  nth_error (filter f l) n = Some x -> In x l /\ f x = true.
Proof. intros H. apply nth_error_In in H. now apply filter_In in H. Qed.

(** C3.  [get_poem_by_mood] asks for the category that the fixed threshold
    gives: a poem returned for a score of 6 or more is a row tagged
    "happy", a poem returned for a score of 5 or less is a row tagged
    "sad"; when no row of the table has the category the result is [None];
    and in every case the call returns, it does not raise. *)
Theorem get_poem_by_mood_category (w : world) (mood_score : Z)
    (self : session) :
  exists res : option poem,
    get_poem_by_mood w mood_score self = (Ok res, self) /\
    (forall p, res = Some p -> 6 <= mood_score ->
       exists rows row,
         files w (db_path self) = Database (Some rows) /\ In row rows /\
         mood_type row = "happy" /\ p = poem_of_row row) /\
    (forall p, res = Some p -> mood_score <= 5 ->
       exists rows row,
         files w (db_path self) = Database (Some rows) /\ In row rows /\
         mood_type row = "sad" /\ p = poem_of_row row) /\
    (forall rows, files w (db_path self) = Database (Some rows) ->
       (forall row, In row rows ->
          mood_type row <> (if 6 <=? mood_score then "happy" else "sad")) ->
       res = None).
Proof.
  eexists. split; [apply get_poem_by_mood_eq|].
  assert (Hpick : forall m rows p,
    option_map poem_of_row
      (nth_error (filter (has_mood m) rows)
         (random w mod List.length (filter (has_mood m) rows))) = Some p ->
    exists row, In row rows /\ mood_type row = m /\ p = poem_of_row row).
  { intros m rows p H.
    destruct (nth_error _ _) as [row|] eqn:E; [|discriminate].
    apply nth_error_filter_In in E. destruct E as [Hin Hm].
    apply String.eqb_eq in Hm. inversion H. now exists row. }
  repeat split.
  - intros p Hres Hs.
    destruct (files w (db_path self)) as [| | [rows|]]; try discriminate.
    replace (mood_score >=? 6) with true in Hres
      by (symmetry; apply Z.geb_le; lia).
    apply Hpick in Hres. destruct Hres as (row & ?). now exists rows, row.
  - intros p Hres Hs.
    destruct (files w (db_path self)) as [| | [rows|]]; try discriminate.
    replace (mood_score >=? 6) with false in Hres
      by (symmetry; rewrite Z.geb_leb; apply Z.leb_gt; lia).
    apply Hpick in Hres. destruct Hres as (row & ?). now exists rows, row.
  - intros rows Hfs Hnone. rewrite Hfs. cbn zeta.
    rewrite Z.geb_leb.
    set (m := if 6 <=? mood_score then "happy" else "sad") in *.
    assert (Hempty : filter (has_mood m) rows = []).
    { destruct (filter (has_mood m) rows) as [|row t] eqn:E; [reflexivity|].
      assert (Hin : In row (filter (has_mood m) rows))
        by (rewrite E; now left).
      apply filter_In in Hin. destruct Hin as [Hin Hm].
      apply String.eqb_eq in Hm. now apply Hnone in Hin. }
    rewrite Hempty. now destruct (random w mod _)%nat.
Qed.

(** Every row of the category can be the one returned: the draw decides. *)
Lemma get_poem_by_mood_any_match (fs : filesystem) (self : session)
    (mood_score : Z) (rows : list poem_row) (row : poem_row) :
  fs (db_path self) = Database (Some rows) ->
  In row rows ->
  mood_type row = (if mood_score >=? 6 then "happy" else "sad") ->
  exists draw rem day,
    get_poem_by_mood (mk_world day fs draw rem) mood_score self =
    (Ok (Some (poem_of_row row)), self).
Proof.
  intros Hfs Hin Hm.
  assert (Hf : In row (filter (has_mood (mood_type row)) rows)).
  { apply filter_In. split; [exact Hin|]. apply String.eqb_refl. }
  apply In_nth_error in Hf. destruct Hf as [n Hn].
  exists n, (fun _ => NoResponse), "".
  rewrite get_poem_by_mood_eq. cbn [files random]. rewrite Hfs, <- Hm.
  cbn zeta. rewrite Nat.mod_small.
  - now rewrite Hn.
  - apply nth_error_Some. now rewrite Hn.
Qed.

End PoemStore.

(** ** Recording a mood *)

Section RecordMood.

Lemma py_int_raises (s : string) (e : exception) :
  py_int s = Raise e -> e = ValueError.
Proof.
  unfold py_int. cbv zeta.
  match goal with
  | |- context [let '(_, _) := ?m in _] => destruct m as [negative body]
  end.
  destruct body as [|c r]; [now inversion 1|].
  destruct (digit_value c); [|now inversion 1].
  destruct (scan_digits _ _ _ _) as [[v n]|]; [|now inversion 1].
  destruct (n <=? max_str_digits)%nat; now inversion 1.
Qed.

Lemma add_mood_record_accepts (w : world) (date_input mood_input : string)
    (self : session) (n : Z) :
  py_int mood_input = Ok n -> 1 <= n <= 10 ->
  let date :=
    if negb (str_truthy date_input) then current_date self else date_input in
  exists shown t,
    add_mood_record w date_input mood_input self =
    (Ok (RecordAdded date n shown t),
     mk_session (dates self ++ [date]) (moods self ++ [n])
                (current_date self) (db_path self)).
Proof.
  intros Hint Hrange date.
  unfold add_mood_record, mbind at 1, get_self, try_with.
  unfold mbind at 1, lift at 1. rewrite Hint.
  replace ((1 <=? n) && (n <=? 10)) with true
    by (symmetry; apply andb_true_iff; split; apply Z.leb_le; lia).
  unfold mbind, modify, dates_append, moods_append. cbn [dates moods
    current_date db_path].
  fold date.
  set (self' := mk_session _ _ _ _).
  destruct (get_poem_by_mood_total w n self') as [shown ->].
  destruct (check_mood_trends_total self') as [t ->].
  now exists shown, t.
Qed.

Lemma add_mood_record_out_of_range (w : world)
    (date_input mood_input : string) (self : session) (n : Z) :
  py_int mood_input = Ok n -> ~ 1 <= n <= 10 ->
  add_mood_record w date_input mood_input self = (Ok InvalidMoodScore, self).
Proof.
  intros Hint Hrange.
  unfold add_mood_record, mbind at 1, get_self, try_with.
  unfold mbind at 1, lift at 1. rewrite Hint.
  replace ((1 <=? n) && (n <=? 10)) with false; [reflexivity|].
  symmetry. apply andb_false_iff. rewrite !Z.leb_gt. lia.
Qed.

Lemma add_mood_record_not_a_number (w : world)
    (date_input mood_input : string) (self : session) (e : exception) :
  py_int mood_input = Raise e ->
  add_mood_record w date_input mood_input self = (Ok InvalidInput, self).
Proof.
  intros Hint. pose proof (py_int_raises _ _ Hint) as ->.
  unfold add_mood_record, mbind at 1, get_self, try_with.
  unfold mbind at 1, lift at 1. rewrite Hint. reflexivity.
Qed.

End RecordMood.

Section RecordMoodSpec.

(** The numerals 1 to 10, as [str] prints them, are read back by [int]. *)
Lemma py_int_of_numeral :
  map py_int ["1"; "2"; "3"; "4"; "5"; "6"; "7"; "8"; "9"; "10"]%string =
  map Ok [1; 2; 3; 4; 5; 6; 7; 8; 9; 10].
Proof. reflexivity. Qed.

(** [int] on some other strings of the kind that can be typed. *)
Lemma py_int_samples :
  map py_int [" 7"; "7 "; "+7"; "-7"; "07"; "0"; "11"; "1_0"]%string =
  map Ok [7; 7; 7; -7; 7; 0; 11; 10] /\
  map py_int [""; " "; "+"; "7a"; "a"; "_7"; "7_"; "+ 7"; "1 0"; "7."; "0x"]%string =
  repeat (Raise ValueError) 11 /\
  py_int (String (ascii_of_nat 28) "7") = Raise ValueError /\
  strip (String (ascii_of_nat 28) "7") = "7"%string.
Proof. repeat split. Qed.

(** C2.  [add_mood_record] on the typed score [mood_input]: when [int]
    reads it as a number from 1 to 10, one record is appended (the typed
    date, or the session's date when none was typed, and the number) and
    the record is shown; when [int] reads a number outside 1..10 the
    out-of-range message is shown, when [int] raises, the not-a-number
    message, the two messages differ, and in both cases the object is
    unchanged.  The call never raises. *)
Theorem add_mood_record_validation (w : world)
    (date_input mood_input : string) (self : session) :
  let date :=
    if negb (str_truthy date_input) then current_date self else date_input in
  let result := add_mood_record w date_input mood_input self in
  (forall n, py_int mood_input = Ok n -> 1 <= n <= 10 ->
     (exists shown t, fst result = Ok (RecordAdded date n shown t)) /\
     dates (snd result) = dates self ++ [date] /\
     moods (snd result) = moods self ++ [n] /\
     List.length (moods (snd result)) = S (List.length (moods self)) /\
     List.length (dates (snd result)) = S (List.length (dates self))) /\
  (forall n, py_int mood_input = Ok n -> ~ 1 <= n <= 10 ->
     result = (Ok InvalidMoodScore, self)) /\
  (forall e, py_int mood_input = Raise e ->
     result = (Ok InvalidInput, self)) /\
  InvalidMoodScore <> InvalidInput /\
  (exists outcome, fst result = Ok outcome).
Proof.
  intros date result. subst result. repeat split.
  - destruct (add_mood_record_accepts w date_input mood_input self n)
      as (shown & t & ->); auto.
    now exists shown, t.
  - destruct (add_mood_record_accepts w date_input mood_input self n)
      as (shown & t & ->); auto.
  - destruct (add_mood_record_accepts w date_input mood_input self n)
      as (shown & t & ->); auto.
  - destruct (add_mood_record_accepts w date_input mood_input self n)
      as (shown & t & ->); auto.
    cbn. rewrite length_app. simpl. lia.
  - destruct (add_mood_record_accepts w date_input mood_input self n)
      as (shown & t & ->); auto.
    cbn. rewrite length_app. simpl. lia.
  - intros n Hn Hr. now apply add_mood_record_out_of_range with n.
  - intros e He. now apply add_mood_record_not_a_number with e.
  - discriminate.
  - destruct (py_int mood_input) as [n|e] eqn:E.
    + destruct (Z_le_dec 1 n) as [H1|H1].
      * destruct (Z_le_dec n 10) as [H2|H2].
        -- destruct (add_mood_record_accepts w date_input mood_input self n)
             as (shown & t & ->); auto.
           now eexists.
        -- rewrite add_mood_record_out_of_range with (n := n); auto.
           { now eexists. } lia.
      * rewrite add_mood_record_out_of_range with (n := n); auto.
        { now eexists. } lia.
    + rewrite add_mood_record_not_a_number with (e := e); auto.
      now eexists.
Qed.

End RecordMoodSpec.

(** ** The history of a session *)

Section History.

(** The two shapes of the object after [add_mood_record]. *)
Lemma add_mood_record_state (w : world) (date_input mood_input : string)
    (self : session) :
  let self' := snd (add_mood_record w date_input mood_input self) in
  self' = self \/
  exists n, py_int mood_input = Ok n /\ in_range n /\
    self' = mk_session
              (dates self ++
               [if negb (str_truthy date_input) then current_date self
                else date_input])
              (moods self ++ [n]) (current_date self) (db_path self).
Proof.
  intros self'. subst self'.
  destruct (py_int mood_input) as [n|e] eqn:E.
  - destruct (Z_le_dec 1 n) as [H1|H1]; [destruct (Z_le_dec n 10) as [H2|H2]|].
    + assert (Hr : 1 <= n <= 10) by lia.
      right. exists n.
      destruct (add_mood_record_accepts w date_input mood_input self n E Hr)
        as (shown & t & ->).
      now repeat split.
    + left. rewrite add_mood_record_out_of_range with (n := n); auto. lia.
    + left. rewrite add_mood_record_out_of_range with (n := n); auto. lia.
  - left. now rewrite add_mood_record_not_a_number with (e := e).
Qed.

Lemma view_mood_records_state (self : session) :
  snd (view_mood_records self) = self.
Proof.
  unfold view_mood_records, mbind, get_self, ret.
  now destruct (negb _).
Qed.

Lemma plot_mood_chart_state (self : session) :
  snd (plot_mood_chart self) = self.
Proof.
  unfold plot_mood_chart, mbind, get_self, ret, lift.
  destruct (_ || _); [reflexivity|].
  destruct (sorted_by _ _); [reflexivity|].
  now destruct (split _).
Qed.

Lemma show_inspirations_state (w : world) (self : session) :
  snd (show_inspirations w self) = self.
Proof. reflexivity. Qed.

Lemma mbind_ret_state {A : Type} (c : M A) (self : session) :
  snd ((c ;;; ret tt) self) = snd (c self).
Proof. unfold mbind, ret. now destruct (c self) as [[a|e] s]. Qed.

(** One turn of the menu appends one record in range, to both lists, or
    changes nothing. *)
Lemma turn_state (w : world) (c : choice) (self : session) :
  let self' := snd (turn w c self) in
  self' = self \/
  exists d n, in_range n /\
    self' = mk_session (dates self ++ [d]) (moods self ++ [n])
              (current_date self) (db_path self).
Proof.
  destruct c; cbn [turn]; cbv zeta; rewrite ?mbind_ret_state.
  - destruct (add_mood_record_state w date_input mood_input self)
      as [H | (n & _ & Hn & H)]; [now left|].
    right. eexists; exists n. split; [exact Hn | exact H].
  - left. apply view_mood_records_state.
  - left. apply plot_mood_chart_state.
  - left. apply show_inspirations_state.
  - now left.
  - now left.
Qed.

(** Over any number of turns the object keeps its history as a prefix and
    gains as many dates as scores, all scores in range; the date and the
    path taken at construction stay. *)
Lemma run_state (keys : list (world * choice)) (self : session) :
  exists ds ns,
    snd (run keys self) =
      mk_session (dates self ++ ds) (moods self ++ ns)
        (current_date self) (db_path self) /\
    List.length ds = List.length ns /\ Forall in_range ns.
Proof.
  revert self. induction keys as [|[w c] rest IH]; intros self.
  - exists [], []. cbn. rewrite !app_nil_r. now destruct self.
  - assert (Hstop : exists ds ns,
              self = mk_session (dates self ++ ds) (moods self ++ ns)
                       (current_date self) (db_path self) /\
              List.length ds = List.length ns /\ Forall in_range ns).
    { exists [], []. rewrite !app_nil_r. now destruct self. }
    assert (Hgo : snd ((turn w c ;;; run rest) self) = snd (turn w c self) \/
                  snd ((turn w c ;;; run rest) self) =
                  snd (run rest (snd (turn w c self)))).
    { unfold mbind. destruct (turn w c self) as [[u|e] s]; auto. }
    assert (Hturn : exists ds ns,
              snd (turn w c self) =
                mk_session (dates self ++ ds) (moods self ++ ns)
                  (current_date self) (db_path self) /\
              List.length ds = List.length ns /\ Forall in_range ns).
    { destruct (turn_state w c self) as [H | (d & n & Hn & H)].
      - rewrite H. exact Hstop.
      - exists [d], [n]. rewrite H. repeat split. now constructor. }
    assert (Hrun : exists ds ns,
              snd ((turn w c ;;; run rest) self) =
                mk_session (dates self ++ ds) (moods self ++ ns)
                  (current_date self) (db_path self) /\
              List.length ds = List.length ns /\ Forall in_range ns).
    { destruct Hgo as [-> | ->]; [exact Hturn|].
      destruct Hturn as (ds & ns & Hs & Hl & Hf).
      destruct (IH (snd (turn w c self))) as (ds' & ns' & Hs' & Hl' & Hf').
      exists (ds ++ ds'), (ns ++ ns'). rewrite Hs', Hs. cbn.
      rewrite !app_assoc. repeat split.
      - rewrite !length_app. lia.
      - now apply Forall_app. }
    destruct c; cbn [run]; solve [exact Hrun | exact Hstop].
Qed.

End History.

Section HistorySpec.

Lemma combine_app_same_length {A B : Type} (l1 l2 : list A)
    (m1 m2 : list B) :
  List.length l1 = List.length m1 ->
  combine (l1 ++ l2) (m1 ++ m2) = combine l1 m1 ++ combine l2 m2.
Proof.
  revert m1. induction l1 as [|a l1 IH]; intros [|b m1] Hlen;
    simpl in *; try discriminate; [reflexivity|].
  f_equal. apply IH. now inversion Hlen.
Qed.

Lemma map_fst_combine {A B : Type} (l : list A) (m : list B) :
  List.length l = List.length m -> map fst (combine l m) = l.
Proof.
  revert m. induction l as [|a l IH]; intros [|b m] Hlen;
    simpl in *; try discriminate; [reflexivity|].
  f_equal. apply IH. now inversion Hlen.
Qed.

Lemma map_snd_combine {A B : Type} (l : list A) (m : list B) :
  List.length l = List.length m -> map snd (combine l m) = m.
Proof.
  revert m. induction l as [|a l IH]; intros [|b m] Hlen;
    simpl in *; try discriminate; [reflexivity|].
  f_equal. apply IH. now inversion Hlen.
Qed.

(** What holds of the object of a session, after any keys. *)
Lemma session_state (w0 : world) (path : string)
    (keys : list (world * choice)) :
  let self := snd (MoodTrackerCLI w0 path keys) in
  List.length (dates self) = List.length (moods self) /\
  Forall in_range (moods self) /\
  current_date self = today w0 /\ db_path self = path.
Proof.
  unfold MoodTrackerCLI.
  destruct (run_state keys (init w0 path)) as (ds & ns & -> & Hl & Hf).
  cbn. auto.
Qed.

(** C5.  Every score in the history of a session is a number from 1 to
    10, and the history only grows at its end: a turn of the menu either
    appends one record with a score in range or leaves both lists as they
    are, and after any further keys the records present before are still
    there, unchanged and in the same places. *)
Theorem history_append_only :
  (forall w0 path keys,
     Forall in_range (moods (snd (MoodTrackerCLI w0 path keys)))) /\
  (forall w c self,
     let self' := snd (turn w c self) in
     self' = self \/
     exists d n, in_range n /\
       dates self' = dates self ++ [d] /\ moods self' = moods self ++ [n]) /\
  (forall keys self,
     exists ds ns,
       dates (snd (run keys self)) = dates self ++ ds /\
       moods (snd (run keys self)) = moods self ++ ns /\
       Forall in_range ns) /\
  (forall w0 path keys more,
     let self := snd (MoodTrackerCLI w0 path keys) in
     let self' := snd (run more self) in
     exists added,
       combine (dates self') (moods self') =
       combine (dates self) (moods self) ++ added).
Proof.
  repeat split.
  - intros w0 path keys. apply (session_state w0 path keys).
  - intros w c self.
    destruct (turn_state w c self) as [H | (d & n & Hn & H)];
      [now left | right].
    exists d, n. cbv zeta. rewrite H. auto.
  - intros keys self.
    destruct (run_state keys self) as (ds & ns & -> & _ & Hf).
    now exists ds, ns.
  - intros w0 path keys more self self'. subst self'.
    destruct (session_state w0 path keys) as (Hlen & _).
    fold self in Hlen.
    destruct (run_state more self) as (ds & ns & -> & _ & _).
    exists (combine ds ns). cbn. now apply combine_app_same_length.
Qed.

(** C10.  The list of dates and the list of scores of a session have the
    same length at all times: a turn of the menu appends one element to
    each or touches neither, so [view_mood_records], which pairs them,
    shows every date with its score. *)
Theorem dates_moods_same_length :
  (forall w0 path keys,
     let self := snd (MoodTrackerCLI w0 path keys) in
     List.length (dates self) = List.length (moods self)) /\
  (forall w c self,
     let self' := snd (turn w c self) in
     (dates self' = dates self /\ moods self' = moods self) \/
     (exists d n,
        dates self' = dates self ++ [d] /\ moods self' = moods self ++ [n])) /\
  (forall w c self,
     List.length (dates self) = List.length (moods self) ->
     List.length (dates (snd (turn w c self))) =
     List.length (moods (snd (turn w c self)))) /\
  (forall w0 path keys,
     let self := snd (MoodTrackerCLI w0 path keys) in
     view_mood_records self =
       (Ok (if negb (list_truthy (dates self)) then NoRecordsToDisplay
            else RecordLines (combine (dates self) (moods self))), self) /\
     map fst (combine (dates self) (moods self)) = dates self /\
     map snd (combine (dates self) (moods self)) = moods self).
Proof.
  repeat split.
  - intros w0 path keys. apply (session_state w0 path keys).
  - intros w c self.
    destruct (turn_state w c self) as [H | (d & n & Hn & H)]; cbv zeta;
      rewrite H; [now left | right]. now exists d, n.
  - intros w c self Hlen.
    destruct (turn_state w c self) as [H | (d & n & Hn & H)];
      rewrite H; [exact Hlen|].
    cbn. rewrite !length_app. simpl. lia.
  - unfold view_mood_records, mbind, get_self, ret.
    now destruct (negb _).
  - apply map_fst_combine. apply (session_state w0 path keys).
  - apply map_snd_combine. apply (session_state w0 path keys).
Qed.

(** C8.  A record entered without a date takes the date that the
    constructor read from the clock: whatever keys came before and
    whatever the clock says at the time of the call, the date appended is
    [today w0], the reading made once when the session was built. *)
Theorem default_date_is_snapshot (w0 : world) (path : string)
    (keys : list (world * choice)) (w : world) (mood_input : string) :
  let self := snd (MoodTrackerCLI w0 path keys) in
  let self' := snd (add_mood_record w EmptyString mood_input self) in
  current_date self = today w0 /\
  current_date self' = today w0 /\
  (self' = self \/
   exists n, dates self' = dates self ++ [today w0] /\
             moods self' = moods self ++ [n]) /\
  (forall n, py_int mood_input = Ok n -> 1 <= n <= 10 ->
     (exists shown t,
        fst (add_mood_record w EmptyString mood_input self) =
        Ok (RecordAdded (today w0) n shown t)) /\
     dates self' = dates self ++ [today w0] /\
     moods self' = moods self ++ [n]).
Proof.
  intros self self'.
  destruct (session_state w0 path keys) as (_ & _ & Hdate & _).
  fold self in Hdate.
  assert (Hcases := add_mood_record_state w EmptyString mood_input self).
  cbv zeta in Hcases. fold self' in Hcases. cbn [str_truthy negb] in Hcases.
  rewrite Hdate in Hcases.
  split; [exact Hdate|]. split; [|split].
  - destruct Hcases as [-> | (n & _ & _ & ->)]; [exact Hdate | reflexivity].
  - destruct Hcases as [H | (n & _ & _ & H)]; [now left | right].
    exists n. now rewrite H.
  - intros n Hint Hrange. subst self'.
    destruct (add_mood_record_accepts w EmptyString mood_input self n
                Hint Hrange) as (shown & t & Heq).
    cbn [str_truthy negb] in Heq. rewrite Hdate in Heq. rewrite Heq.
    split; [now exists shown, t | now split].
Qed.

End HistorySpec.

(** ** The chart *)

Section Sorting.

Lemma ascii_compare_trans_lt (a b c : ascii) :
  Ascii.compare a b = Lt -> Ascii.compare b c = Lt -> Ascii.compare a c = Lt.
Proof.
  unfold Ascii.compare. rewrite !N.compare_lt_iff. apply N.lt_trans.
Qed.

Lemma ascii_compare_refl (a : ascii) : Ascii.compare a a = Eq.
Proof. unfold Ascii.compare. apply N.compare_refl. Qed.

Lemma string_compare_refl (s : string) : String.compare s s = Eq.
Proof.
  induction s as [|a s IH]; [reflexivity|].
  simpl. now rewrite ascii_compare_refl.
Qed.

Lemma string_leb_refl (s : string) : String.leb s s = true.
Proof. unfold String.leb. now rewrite string_compare_refl. Qed.

Lemma string_compare_trans_lt (s1 s2 s3 : string) :
  String.compare s1 s2 = Lt -> String.compare s2 s3 = Lt ->
  String.compare s1 s3 = Lt.
Proof.
  revert s2 s3. induction s1 as [|a s1 IH]; intros [|b s2] [|c s3];
    simpl; try discriminate; try reflexivity.
  destruct (Ascii.compare a b) eqn:Eab; try discriminate;
    destruct (Ascii.compare b c) eqn:Ebc; try discriminate; intros H1 H2.
  - apply Ascii.compare_eq_iff in Eab, Ebc. subst.
    rewrite ascii_compare_refl. now apply IH with s2.
  - apply Ascii.compare_eq_iff in Eab. subst. now rewrite Ebc.
  - apply Ascii.compare_eq_iff in Ebc. subst. now rewrite Eab.
  - now rewrite (ascii_compare_trans_lt a b c).
Qed.

Lemma string_leb_trans (s1 s2 s3 : string) :
  String.leb s1 s2 = true -> String.leb s2 s3 = true ->
  String.leb s1 s3 = true.
Proof.
  unfold String.leb.
  destruct (String.compare s1 s2) eqn:E12; try discriminate;
    destruct (String.compare s2 s3) eqn:E23; try discriminate; intros _ _.
  - apply String.compare_eq_iff in E12, E23. subst.
    now rewrite string_compare_refl.
  - apply String.compare_eq_iff in E12. subst. now rewrite E23.
  - apply String.compare_eq_iff in E23. subst. now rewrite E12.
  - now rewrite (string_compare_trans_lt s1 s2 s3).
Qed.

Variable A : Type.
Variable key : A -> string.

Lemma insert_by_perm (x : A) (l : list A) :
  Permutation (insert_by key x l) (x :: l).
Proof.
  induction l as [|y r IH]; simpl; [reflexivity|].
  destruct (String.leb (key x) (key y)); [reflexivity|].
  rewrite IH. apply perm_swap.
Qed.

Lemma sorted_by_perm (l : list A) : Permutation (sorted_by key l) l.
Proof.
  induction l as [|x r IH]; simpl; [reflexivity|].
  rewrite insert_by_perm. now constructor.
Qed.

Lemma insert_by_sorted (x : A) (l : list A) :
  StronglySorted (key_le key) l -> StronglySorted (key_le key) (insert_by key x l).
Proof.
  induction 1 as [|y r Hr IH Hy]; simpl.
  - repeat constructor.
  - destruct (String.leb (key x) (key y)) eqn:E.
    + constructor; [now constructor|].
      constructor; [exact E|].
      eapply Forall_impl; [|exact Hy].
      intros z Hz. unfold key_le in *. now apply string_leb_trans with (key y).
    + constructor; [exact IH|].
      assert (Hyx : key_le key y x).
      { unfold key_le.
        destruct (String.leb_total (key x) (key y)) as [H|H];
          [congruence | exact H]. }
      eapply Permutation_Forall.
      * symmetry. apply insert_by_perm.
      * now constructor.
Qed.

Lemma sorted_by_sorted (l : list A) : StronglySorted (key_le key) (sorted_by key l).
Proof.
  induction l as [|x r IH]; simpl; [constructor|].
  now apply insert_by_sorted.
Qed.

(** Stability: among the elements of one key, the order is the one of the
    input. *)
Lemma insert_by_stable (d : string) (x : A) (l : list A) :
  filter (fun y => String.eqb (key y) d) (insert_by key x l) =
  filter (fun y => String.eqb (key y) d) (x :: l).
Proof.
  induction l as [|y r IH]; [reflexivity|].
  cbn [insert_by].
  destruct (String.leb (key x) (key y)) eqn:E; [reflexivity|].
  cbn [filter] in *. rewrite IH.
  destruct (String.eqb (key x) d) eqn:Ex; [|reflexivity].
  destruct (String.eqb (key y) d) eqn:Ey; [|reflexivity].
  apply String.eqb_eq in Ex, Ey. rewrite Ex, Ey, string_leb_refl in E.
  discriminate.
Qed.

Lemma sorted_by_stable (d : string) (l : list A) :
  filter (fun y => String.eqb (key y) d) (sorted_by key l) =
  filter (fun y => String.eqb (key y) d) l.
Proof.
  induction l as [|x r IH]; [reflexivity|].
  cbn [sorted_by]. rewrite insert_by_stable. cbn [filter].
  now rewrite IH.
Qed.

End Sorting.

Section Chart.

Local Open Scope string_scope.
Local Open Scope Z_scope.

Lemma sorted_by_nil_inv {A : Type} (key : A -> string) (l : list A) :
  sorted_by key l = [] -> l = [].
Proof.
  intros H. pose proof (sorted_by_perm _ key l) as Hp. rewrite H in Hp.
  now apply Permutation_nil in Hp.
Qed.

(** [plot_mood_chart] returns, and draws the sorted pairs; there is
    nothing to draw exactly when one of the two lists is empty. *)
Lemma plot_mood_chart_eq (self : session) :
  exists c,
    plot_mood_chart self = (Ok c, self) /\
    chart_points c = sorted_by fst (combine (dates self) (moods self)) /\
    (c = NothingToPlot <-> combine (dates self) (moods self) = []).
Proof.
  unfold plot_mood_chart, mbind, get_self, ret, lift.
  destruct (dates self) as [|d ds]; [now exists NothingToPlot|].
  destruct (moods self) as [|m ms]; [now exists NothingToPlot|].
  cbn [list_truthy negb orb].
  destruct (sorted_by fst (combine (d :: ds) (m :: ms))) as [|x r] eqn:E.
  - apply sorted_by_nil_inv in E. discriminate.
  - pose proof (split_combine (x :: r)) as Hsc.
    destruct (split (x :: r)) as [xs ys].
    exists (Plot xs ys). repeat split; try discriminate.
    exact (Hsc xs ys eq_refl).
Qed.

(** C6.  The chart is drawn through the (date, score) pairs of the history
    in ascending order of date: the points are the pairs of the history,
    each as often as it occurs, every point has a date at most that of
    every later point, and the points of one date come in the order in
    which they were entered.  With an empty history there are no points.
    The two records of 2024-03-02 (score 4) and 2024-03-01 (score 7) are
    drawn as 2024-03-01 (7), 2024-03-02 (4). *)
Theorem plot_mood_chart_sorted :
  (forall self : session,
     let history := combine (dates self) (moods self) in
     exists c : chart,
       plot_mood_chart self = (Ok c, self) /\
       Permutation (chart_points c) history /\
       StronglySorted (key_le fst) (chart_points c) /\
       (forall d : string,
          filter (fun r => String.eqb (fst r) d) (chart_points c) =
          filter (fun r => String.eqb (fst r) d) history) /\
       (history = [] -> c = NothingToPlot /\ chart_points c = [])) /\
  (forall cd path,
     plot_mood_chart (mk_session ["2024-03-02"; "2024-03-01"] [4; 7] cd path)
     = (Ok (Plot ["2024-03-01"; "2024-03-02"] [7; 4]),
        mk_session ["2024-03-02"; "2024-03-01"] [4; 7] cd path)) /\
  (forall cd path,
     plot_mood_chart (mk_session [] [] cd path) =
     (Ok NothingToPlot, mk_session [] [] cd path)).
Proof.
  split; [|split; reflexivity].
  intros self history.
  destruct (plot_mood_chart_eq self) as (c & Hc & Hpts & Hnone).
  exists c. fold history in Hpts, Hnone. rewrite Hpts.
  split; [exact Hc|]. split; [apply sorted_by_perm|].
  split; [apply sorted_by_sorted|].
  split; [intros d; apply sorted_by_stable|].
  intros Hnil. split; [now apply Hnone | now rewrite Hnil].
Qed.

End Chart.

(** ** Retrieval from the remote service *)

Section Remote.

Local Open Scope string_scope.
Local Open Scope Z_scope.

(** A poem is returned by the [try] block only from a reply that decodes,
    whose first item is a [dict], and whose line count, read by [int], is
    below 1000. *)
Lemma try_block_returns (r : response) (p : fetched_poem) :
  try_block r = Ok (Some p) ->
  exists status poems poem raw linecount,
    r = Http status (Some poems) /\
    getitem0 poems = Ok poem /\
    dict_get poem "linecount" (JInt 0) = Ok raw /\
    int_of raw = Ok linecount /\ linecount < 1000 /\
    dict_get poem "title" (JStr "Untitled") = Ok (title p) /\
    dict_get poem "author" (JStr "Unknown") = Ok (author p) /\
    dict_get poem "lines" (JArr []) = Ok (lines p).
Proof.
  unfold try_block. destruct r as [|status body]; cbn; try discriminate.
  destruct (raise_for_status status); cbn; try discriminate.
  destruct body as [poems|]; cbn; try discriminate.
  destruct (truthy poems); cbn; try discriminate.
  destruct (py_len poems) as [n|]; cbn; try discriminate.
  destruct (n >? 0); try discriminate.
  destruct (getitem0 poems) as [poem|] eqn:Ep; cbn; try discriminate.
  destruct (dict_get poem "linecount" (JInt 0)) as [raw|] eqn:Er; cbn;
    try discriminate.
  destruct (int_of raw) as [linecount|] eqn:El; cbn; try discriminate.
  destruct (linecount <? 1000) eqn:Elt; try discriminate.
  destruct (dict_get poem "title" _) as [vt|] eqn:Et; cbn; try discriminate.
  destruct (dict_get poem "author" _) as [va|] eqn:Ea; cbn;
    try discriminate.
  destruct (dict_get poem "lines" _) as [vl|] eqn:Eli; cbn;
    try discriminate.
  intros H. inversion H. subst p. cbn.
  apply Z.ltb_lt in Elt.
  exists status, poems, poem, raw, linecount. repeat split; assumption.
Qed.

(** The loop, started with [attempts] failures counted and [sent] requests
    made: it makes at most one request for each attempt left; a poem comes
    from the last request made; [None] comes when the attempts are used
    up; an exception is one that the [except] clause does not name, raised
    by the last request made; and every request before the last one, as
    well as the last one when the result is [None], was unsuitable or
    failed with a named exception. *)
Lemma fetch_loop_spec (net : nat -> response) (attempts sent : nat) :
  (sent <= snd (fetch_loop net attempts sent)
        <= sent + (max_attempts - attempts))%nat /\
  match fst (fetch_loop net attempts sent) with
  | Ok (Some p) =>
      exists i, snd (fetch_loop net attempts sent) = S i /\
                try_block (net i) = Ok (Some p)
  | Ok None =>
      snd (fetch_loop net attempts sent)
      = (sent + (max_attempts - attempts))%nat
  | Raise e =>
      fetch_handled e = false /\
      exists i, snd (fetch_loop net attempts sent) = S i /\
                try_block (net i) = Raise e
  end /\
  (forall i, (sent <= i)%nat ->
     (S i < snd (fetch_loop net attempts sent))%nat \/
     ((i < snd (fetch_loop net attempts sent))%nat /\
      fst (fetch_loop net attempts sent) = Ok None) ->
     try_block (net i) = Ok None \/
     exists e, try_block (net i) = Raise e /\ fetch_handled e = true).
Proof.
  funelim (fetch_loop net attempts sent); try clear Heqcall; cbn [fst snd].
  - (* the attempts are used up *)
    split; [lia|]. split; [lia|].
    intros i Hi [H | [H _]]; lia.
  - (* a suitable poem *)
    split; [lia|]. split; [now exists sent|].
    intros i Hi [H | [_ H]]; [lia | discriminate].
  - (* unsuitable: the counter goes up, the loop goes on *)
    destruct H as (Hb & Hres & Hprev).
    split; [lia|]. split.
    + destruct (fst (fetch_loop net (attempts + 1) (S sent))) as [[p|]|e];
        [exact Hres | lia | exact Hres].
    + intros i Hi Hlast.
      destruct (Nat.eq_dec i sent) as [-> | Hne]; [now left|].
      apply Hprev; [lia | exact Hlast].
  - (* an exception that is not named *)
    split; [lia|]. split; [split; [exact Heq | now exists sent]|].
    intros i Hi [H | [_ H]]; [lia | discriminate].
  - (* a named exception at the last attempt *)
    split; [lia|]. split; [lia|].
    intros i Hi [H | [H _]]; [lia|].
    assert (i = sent) as -> by lia. right. now exists e.
  - (* a named exception, the loop goes on *)
    destruct H as (Hb & Hres & Hprev).
    split; [lia|]. split.
    + destruct (fst (fetch_loop net (attempts + 1) (S sent))) as [[p|]|e'];
        [exact Hres | lia | exact Hres].
    + intros i Hi Hlast.
      destruct (Nat.eq_dec i sent) as [-> | Hne];
        [right; now exists e|].
      apply Hprev; [lia | exact Hlast].
Qed.

(** [get_random_poem] makes at most 20 requests and leaves the object as
    it was; a poem that it returns has a line count below 1000, as [int]
    reads it from one of the replies; an exception that it raises is one
    that the [except] clause does not name. *)
Theorem get_random_poem_bounded (w : world) (self : session) :
  (requests_made w <= max_attempts)%nat /\
  snd (get_random_poem w self) = self /\
  match fst (get_random_poem w self) with
  | Ok (Some p) =>
      exists i status poems poem raw linecount,
        (i < max_attempts)%nat /\
        remote w i = Http status (Some poems) /\
        getitem0 poems = Ok poem /\
        dict_get poem "linecount" (JInt 0) = Ok raw /\
        int_of raw = Ok linecount /\ linecount < 1000 /\
        dict_get poem "title" (JStr "Untitled") = Ok (title p) /\
        dict_get poem "author" (JStr "Unknown") = Ok (author p) /\
        dict_get poem "lines" (JArr []) = Ok (lines p)
  | Ok None => True
  | Raise e => fetch_handled e = false
  end.
Proof.
  unfold get_random_poem, requests_made, lift. cbn [fst snd].
  destruct (fetch_loop_spec (remote w) 0 0) as (Hb & Hres & _).
  split; [lia|]. split; [reflexivity|].
  destruct (fst (fetch_loop (remote w) 0 0)) as [[p|]|e]; [|exact I|tauto].
  destruct Hres as (i & Hi & Htry).
  apply try_block_returns in Htry.
  destruct Htry as (status & poems & poem & raw & n & Hr & Hrest).
  exists i, status, poems, poem, raw, n. split; [lia|]. now split.
Qed.

(** When each of the first 20 replies is unsuitable or fails with one of
    the exceptions that the [except] clause names, [get_random_poem] makes
    20 requests and returns [None]. *)
Theorem get_random_poem_exhausted (w : world) (self : session) :
  (forall i, (i < max_attempts)%nat ->
     try_block (remote w i) = Ok None \/
     exists e, try_block (remote w i) = Raise e /\ fetch_handled e = true) ->
  get_random_poem w self = (Ok None, self) /\ requests_made w = max_attempts.
Proof.
  intros Hall. unfold get_random_poem, requests_made, lift.
  destruct (fetch_loop_spec (remote w) 0 0) as (Hb & Hres & _).
  destruct (fst (fetch_loop (remote w) 0 0)) as [[p|]|e] eqn:E.
  - destruct Hres as (i & Hi & Htry).
    destruct (Hall i) as [H | (e & H & _)]; [lia | congruence | congruence].
  - split; [reflexivity | lia].
  - destruct Hres as (Hnh & i & Hi & Htry).
    destruct (Hall i) as [H | (e' & H & Hh)]; [lia | congruence |].
    rewrite H in Htry. inversion Htry. congruence.
Qed.

(** Twenty replies that are a time-out, a server error, a body that is
    not JSON, the service's own error object, an empty list, or a poem of
    1000 lines or more, in turn. *)
Lemma get_random_poem_exhausted_witness :
  get_random_poem
    (mk_world "2024-03-01" (fun _ => NoFile) 0
       (fun i => match (i mod 6)%nat with
                 | 0%nat => NoResponse
                 | 1%nat => Http 503 None
                 | 2%nat => Http 200 None
                 | 3%nat => Http 200 (Some (JObj [("status", JInt 404)]))
                 | 4%nat => Http 200 (Some (JArr []))
                 | _ => Http 200 (Some (JArr [JObj [("linecount", JStr "1000")]]))
                 end))
    (mk_session [] [] "2024-03-01" "poems.db") =
  (Ok None, mk_session [] [] "2024-03-01" "poems.db").
Proof.
  apply get_random_poem_exhausted.
  intros i Hi. unfold max_attempts in Hi.
  do 20 (destruct i as [|i];
         [cbn; first [now left | right; eexists; split; reflexivity]|]).
  lia.
Defined.

(** [get_random_poem] leaves with an exception exactly when a reply raises
    one that the [except] clause does not name. *)
Lemma get_random_poem_raises (w : world) (self : session) (e : exception) :
  fst (get_random_poem w self) = Raise e ->
  fetch_handled e = false /\
  exists i, (i < max_attempts)%nat /\ try_block (remote w i) = Raise e.
Proof.
  unfold get_random_poem, lift. cbn [fst]. intros H.
  destruct (fetch_loop_spec (remote w) 0 0) as (Hb & Hres & _).
  rewrite H in Hres. destruct Hres as (Hnh & i & Hi & Htry).
  split; [exact Hnh|]. exists i. split; [lia | exact Htry].
Qed.

(** C4.  [get_random_poem] on a service whose reply decodes to a one-item
    list holding a [dict] with a null line count: [int (None)] raises
    [TypeError], which the [except] clause does not name, so the call
    leaves with that exception after one request, and so does
    [show_inspirations] and the menu loop that called it. *)
Theorem get_random_poem_null_linecount :
  let reply := Http 200 (Some (JArr [JObj [("linecount", JNull)]])) in
  let w := mk_world "2024-03-01" (fun _ => NoFile) 0 (fun _ => reply) in
  forall self : session,
    try_block reply = Raise TypeError /\
    fetch_handled TypeError = false /\
    get_random_poem w self = (Raise TypeError, self) /\
    requests_made w = 1%nat /\
    run [(w, Key4); (w, Key2)] self = (Raise TypeError, self).
Proof. intros reply w self. repeat split. Qed.

End Remote.

(** ** Failures of the store *)

Section StoreFailure.

Local Open Scope string_scope.
Local Open Scope Z_scope.

(** C7, as stated, fails: [get_poem_by_mood] gives the same answer, [None]
    with the object untouched and nothing else, when the file is missing,
    when it is not a database, when the table is missing, and when the
    table is there and holds no poem at all.  Nothing at the boundary of
    the method tells the failures from "no poem of this mood". *)
Lemma storage_failure_indistinguishable :
  let self := mk_session [] [] "2024-03-01" "poems.db" in
  let w := fun f => mk_world "2024-03-01" (fun _ => f) 0 (fun _ => NoResponse) in
  get_poem_by_mood (w NoFile) 7 self = (Ok None, self) /\
  get_poem_by_mood (w NotADatabase) 7 self = (Ok None, self) /\
  get_poem_by_mood (w (Database None)) 7 self = (Ok None, self) /\
  get_poem_by_mood (w (Database (Some []))) 7 self = (Ok None, self) /\
  get_poem_by_mood (w NotADatabase) 7 self =
  get_poem_by_mood (w (Database (Some []))) 7 self.
Proof. repeat split. Qed.

(** C7, amended.  When the file behind [db_path] is missing, is not a
    database, or has no table [poems], [get_poem_by_mood] raises nothing
    and returns [None], the very result of a search that finds no poem;
    the object is unchanged. *)
Theorem storage_failure_is_not_found (w : world) (mood_score : Z)
    (self : session) :
  files w (db_path self) = NoFile \/
  files w (db_path self) = NotADatabase \/
  files w (db_path self) = Database None ->
  get_poem_by_mood w mood_score self = (Ok None, self) /\
  forall w' : world,
    files w' (db_path self) = Database (Some []) ->
    get_poem_by_mood w mood_score self = get_poem_by_mood w' mood_score self.
Proof.
  intros Hfail.
  assert (H : get_poem_by_mood w mood_score self = (Ok None, self)).
  { rewrite get_poem_by_mood_eq.
    destruct Hfail as [-> | [-> | ->]]; reflexivity. }
  split; [exact H|].
  intros w' Hw'. rewrite H, get_poem_by_mood_eq, Hw'.
  cbn [filter List.length]. cbv zeta. now rewrite nth_error_nil.
Qed.

Lemma storage_failure_is_not_found_witness :
  get_poem_by_mood
    (mk_world "2024-03-01" (fun _ => NotADatabase) 0 (fun _ => NoResponse))
    3 (mk_session ["2024-02-29"] [4] "2024-03-01" "poems.db") =
  (Ok None, mk_session ["2024-02-29"] [4] "2024-03-01" "poems.db").
Proof.
  apply (storage_failure_is_not_found
           (mk_world "2024-03-01" (fun _ => NotADatabase) 0
              (fun _ => NoResponse))
           3 (mk_session ["2024-02-29"] [4] "2024-03-01" "poems.db")).
  right. left. reflexivity.
Defined.

End StoreFailure.

(** ** From the scraper to the session *)

Section RoundTrip.

Local Open Scope string_scope.
Local Open Scope list_scope.
Local Open Scope Z_scope.

Lemma write_file_same (fs : filesystem) (path : string) (f : db_file) :
  write_file fs path f path = f.
Proof. unfold write_file. now rewrite String.eqb_refl. Qed.

Lemma filter_app_last {A : Type} (f : A -> bool) (l : list A) (x : A) :
  f x = true -> filter f (l ++ [x]) = filter f l ++ [x].
Proof. intros H. rewrite filter_app. cbn. now rewrite H. Qed.

(** The draw among the rows of a mood, once a row of that mood has been
    appended: some row of the mood is picked, an old one or the new one. *)
Lemma pick_after_append (rows : list poem_row) (new : poem_row) (m : string)
    (draw : nat) :
  mood_type new = m ->
  exists row,
    nth_error (filter (has_mood m) (rows ++ [new]))
      (draw mod List.length (filter (has_mood m) (rows ++ [new]))) = Some row /\
    (In row rows \/ row = new) /\ mood_type row = m.
Proof.
  intros Hm.
  assert (Hnew : has_mood m new = true)
    by (unfold has_mood; rewrite Hm; apply String.eqb_refl).
  set (matching := filter (has_mood m) (rows ++ [new])).
  assert (Hlen : (List.length matching <> 0)%nat).
  { unfold matching. rewrite filter_app_last by exact Hnew.
    rewrite length_app. simpl. lia. }
  destruct (nth_error matching (draw mod List.length matching)) as [row|] eqn:E.
  - exists row. split; [reflexivity|].
    apply nth_error_In in E. apply filter_In in E. destruct E as [Hin Hrow].
    split.
    + apply in_app_or in Hin. destruct Hin as [H | [H | []]]; auto.
    + now apply String.eqb_eq in Hrow.
  - apply nth_error_None in E.
    pose proof (Nat.mod_upper_bound draw _ Hlen). lia.
Qed.

(** What [insert_poems_to_duckdb] does with one complete poem. *)
Lemma insert_one_poem (fs : filesystem) (path m : string)
    (rows : list poem_row) (name writer text : string) :
  init_duckdb fs path = Ok rows ->
  str_truthy (strip name) = true ->
  str_truthy (strip writer) = true ->
  str_truthy (strip text) = true ->
  coalesce_max_id rows < int32_max ->
  insert_poems_to_duckdb [mk_poem (Some name) (Some writer) (Some text)]
    m path fs =
  Ok (1, write_file fs path
           (Database (Some (rows ++
              [mk_row (coalesce_max_id rows + 1) (strip name) (strip writer)
                 (strip text) m])))).
Proof.
  intros Hinit Hn Hw Ht Hid.
  unfold insert_poems_to_duckdb. rewrite Hinit.
  cbn [bind fold_left]. unfold insert_one.
  cbn [d_poem_name d_writer_name d_poem_text get_or_empty].
  rewrite Hn, Hw, Ht. cbn [negb orb]. unfold insert_row. cbn [id].
  replace (coalesce_max_id rows + 1 <=? int32_max) with true
    by (symmetry; apply Z.leb_le; lia).
  reflexivity.
Qed.

(** What it does with a poem that lacks a field: the poem is skipped. *)
Lemma insert_one_incomplete (fs : filesystem) (path m : string)
    (rows : list poem_row) (p : poem_dict) :
  init_duckdb fs path = Ok rows ->
  str_truthy (strip (get_or_empty (d_poem_name p))) = false \/
  str_truthy (strip (get_or_empty (d_writer_name p))) = false \/
  str_truthy (strip (get_or_empty (d_poem_text p))) = false ->
  insert_poems_to_duckdb [p] m path fs =
  Ok (0, write_file fs path (Database (Some rows))).
Proof.
  intros Hinit Hempty.
  unfold insert_poems_to_duckdb. rewrite Hinit.
  cbn [bind fold_left]. unfold insert_one.
  destruct Hempty as [-> | [-> | ->]]; cbn [negb orb];
    rewrite ?orb_true_r; reflexivity.
Qed.

(** C9, as stated, fails, in four ways.  A name with a space on either
    side is not empty, and comes back without the spaces.  A name made of
    spaces is not empty, and the poem is skipped.  With another poem of
    the mood in the store, the other one may be drawn.  And a table whose
    largest key is the largest [INTEGER] takes no further row. *)
Lemma round_trip_counterexample :
  let self := mk_session [] [] "2024-03-01" "poems.db" in
  let at_ := fun fs draw =>
    mk_world "2024-03-01" fs draw (fun _ => NoResponse) in
  let empty : filesystem := fun _ => NoFile in
  let holding := fun row : poem_row =>
    (fun _ => Database (Some [row])) : filesystem in
  match insert_poems_to_duckdb
          [mk_poem (Some " Ode ") (Some "Keats") (Some "Line")]
          "happy" "poems.db" empty with
  | Ok (n, fs') =>
      n = 1 /\
      get_poem_by_mood (at_ fs' 0%nat) 7 self =
        (Ok (Some (mk_poem_result "Ode" "Keats" "Line")), self) /\
      " Ode " <> "Ode"
  | Raise _ => False
  end /\
  match insert_poems_to_duckdb
          [mk_poem (Some "  ") (Some "Keats") (Some "Line")]
          "happy" "poems.db" empty with
  | Ok (n, fs') =>
      n = 0 /\ get_poem_by_mood (at_ fs' 0%nat) 7 self = (Ok None, self)
  | Raise _ => False
  end /\
  match insert_poems_to_duckdb
          [mk_poem (Some "Ode") (Some "Keats") (Some "Line")]
          "happy" "poems.db"
          (holding (mk_row 1 "Daffodils" "Wordsworth" "Cloud" "happy")) with
  | Ok (n, fs') =>
      n = 1 /\
      get_poem_by_mood (at_ fs' 0%nat) 7 self =
        (Ok (Some (mk_poem_result "Daffodils" "Wordsworth" "Cloud")), self)
  | Raise _ => False
  end /\
  match insert_poems_to_duckdb
          [mk_poem (Some "Ode") (Some "Keats") (Some "Line")]
          "happy" "poems.db"
          (holding (mk_row 2147483647 "Daffodils" "Wordsworth" "Cloud" "sad"))
  with
  | Ok (n, fs') =>
      n = 0 /\ get_poem_by_mood (at_ fs' 0%nat) 7 self = (Ok None, self)
  | Raise _ => False
  end.
Proof. repeat split; discriminate. Qed.

(** C9, amended.  Take a poem whose name, writer and text are not empty
    once the white space around them is dropped, and a store that opens
    and whose largest key is below the largest [INTEGER].  Inserting the
    poem under the mood of a score ("happy" from 6 up, "sad" below) stores
    one row with the three fields without the white space around them.
    [get_poem_by_mood] for that score then returns a row of that mood: the
    new one or one stored before, as the draw decides; the new one for a
    suitable draw; and the new one for every draw when no row of the mood
    was stored before.  What comes back of the new row is the name, the
    writer and the text that were inserted, white space around them
    dropped.  A poem with a field that is missing, or empty once the white
    space around it is dropped, is skipped and the table stays as it
    was. *)
Theorem insert_then_get_round_trip :
  (forall (fs : filesystem) (path : string) (rows : list poem_row)
          (name writer text : string) (mood_score : Z),
     init_duckdb fs path = Ok rows ->
     str_truthy (strip name) = true ->
     str_truthy (strip writer) = true ->
     str_truthy (strip text) = true ->
     coalesce_max_id rows < int32_max ->
     let m := if mood_score >=? 6 then "happy" else "sad" in
     let stored := mk_poem_result (strip name) (strip writer) (strip text) in
     exists fs' : filesystem,
       insert_poems_to_duckdb
         [mk_poem (Some name) (Some writer) (Some text)] m path fs
       = Ok (1, fs') /\
       forall (w : world) (self : session),
         files w = fs' -> db_path self = path ->
         (exists row,
            mood_type row = m /\
            (In row rows \/ poem_of_row row = stored) /\
            get_poem_by_mood w mood_score self
            = (Ok (Some (poem_of_row row)), self)) /\
         ((forall row, In row rows -> mood_type row <> m) ->
          get_poem_by_mood w mood_score self = (Ok (Some stored), self)) /\
         (exists draw,
            get_poem_by_mood (mk_world (today w) fs' draw (remote w))
              mood_score self
            = (Ok (Some stored), self))) /\
  (forall (fs : filesystem) (path m : string) (rows : list poem_row)
          (p : poem_dict),
     init_duckdb fs path = Ok rows ->
     str_truthy (strip (get_or_empty (d_poem_name p))) = false \/
     str_truthy (strip (get_or_empty (d_writer_name p))) = false \/
     str_truthy (strip (get_or_empty (d_poem_text p))) = false ->
     exists fs' : filesystem,
       insert_poems_to_duckdb [p] m path fs = Ok (0, fs') /\
       fs' path = Database (Some rows)).
Proof.
  split.
  - intros fs path rows name writer text mood_score Hinit Hn Hw Ht Hid m
      stored.
    set (new := mk_row (coalesce_max_id rows + 1) (strip name) (strip writer)
                  (strip text) m).
    exists (write_file fs path (Database (Some (rows ++ [new])))).
    split; [now apply insert_one_poem|].
    intros w self Hfiles Hpath.
    assert (Hget : forall draw,
      get_poem_by_mood (mk_world (today w) (files w) draw (remote w))
        mood_score self =
      (Ok (option_map poem_of_row
             (nth_error (filter (has_mood m) (rows ++ [new]))
                (draw mod List.length (filter (has_mood m) (rows ++ [new]))))),
       self)).
    { intros draw. rewrite get_poem_by_mood_eq. cbn [files random].
      rewrite Hfiles, Hpath, write_file_same. reflexivity. }
    assert (Hw' : w = mk_world (today w) (files w) (random w) (remote w))
      by now destruct w.
    assert (Hnew : has_mood m new = true) by apply String.eqb_refl.
    split; [|split].
    + destruct (pick_after_append rows new m (random w) eq_refl)
        as (row & Hpick & Hin & Hm).
      exists row. split; [exact Hm|]. split.
      * destruct Hin as [H | ->]; [now left | now right].
      * rewrite Hw', Hget, Hpick. reflexivity.
    + intros Hnone. rewrite Hw', Hget.
      assert (Hold : filter (has_mood m) rows = []).
      { destruct (filter (has_mood m) rows) as [|row t] eqn:E;
          [reflexivity|].
        assert (Hin : In row (filter (has_mood m) rows))
          by (rewrite E; now left).
        apply filter_In in Hin. destruct Hin as [Hin Hm].
        apply String.eqb_eq in Hm. now apply Hnone in Hin. }
      rewrite filter_app_last, Hold by exact Hnew.
      cbn [app List.length]. rewrite Nat.mod_1_r. reflexivity.
    + exists (List.length (filter (has_mood m) rows)).
      rewrite <- Hfiles, Hget, filter_app_last by exact Hnew.
      rewrite length_app. cbn [List.length].
      rewrite Nat.mod_small by lia.
      rewrite nth_error_app2, Nat.sub_diag by lia. reflexivity.
  - intros fs path m rows p Hinit Hempty.
    exists (write_file fs path (Database (Some rows))).
    split; [now apply insert_one_incomplete | apply write_file_same].
Qed.

Lemma insert_then_get_round_trip_witness :
  exists fs' : filesystem,
    insert_poems_to_duckdb
      [mk_poem (Some "Ode") (Some "Keats") (Some "Line one
Line two")]
      "sad" "poems.db" (fun _ => NoFile) = Ok (1, fs') /\
    get_poem_by_mood
      (mk_world "2024-03-01" fs' 11 (fun _ => NoResponse)) 5
      (mk_session [] [] "2024-03-01" "poems.db") =
    (Ok (Some (mk_poem_result "Ode" "Keats" "Line one
Line two")),
     mk_session [] [] "2024-03-01" "poems.db").
Proof.
  destruct (proj1 insert_then_get_round_trip (fun _ => NoFile) "poems.db" []
              "Ode" "Keats" "Line one
Line two" 5 eq_refl eq_refl eq_refl eq_refl eq_refl)
    as (fs' & Hins & Hget).
  exists fs'. split; [exact Hins|].
  apply (Hget (mk_world "2024-03-01" fs' 11 (fun _ => NoResponse))
              (mk_session [] [] "2024-03-01" "poems.db") eq_refl eq_refl).
  intros row [].
Defined.

End RoundTrip.

(** ** The properties at concrete inputs *)

Section Instances.

Local Open Scope string_scope.
Local Open Scope list_scope.
Local Open Scope Z_scope.

(** The score "7" typed on a new session, with no date. *)
Lemma add_mood_record_validation_witness :
  dates (snd (add_mood_record march_1 "" "7" (init march_1 "poems.db")))
    = [] ++ ["2024-03-01"] /\
  moods (snd (add_mood_record march_1 "" "7" (init march_1 "poems.db")))
    = [] ++ [7].
Proof.
  pose proof (add_mood_record_validation march_1 "" "7"
                (init march_1 "poems.db")) as H.
  cbv zeta in H. destruct H as (Hok & _).
  assert (Hrange : 1 <= 7 <= 10) by lia.
  destruct (Hok 7 eq_refl Hrange) as (_ & Hd & Hm & _).
  split; [exact Hd | exact Hm].
Defined.

(** A score of 8 against the store of [march_1]. *)
Lemma get_poem_by_mood_category_witness :
  exists rows row,
    files march_1 "poems.db" = Database (Some rows) /\ In row rows /\
    mood_type row = "happy" /\
    mk_poem_result "Daffodils" "Wordsworth" "I wandered" = poem_of_row row.
Proof.
  destruct (get_poem_by_mood_category march_1 8 (init march_1 "poems.db"))
    as (res & Heq & Hhappy & _).
  assert (Hres : res = Some (mk_poem_result "Daffodils" "Wordsworth"
                               "I wandered")).
  { vm_compute in Heq. now inversion Heq. }
  assert (Hscore : 6 <= 8) by lia.
  exact (Hhappy _ Hres Hscore).
Defined.

(** A session built on 1 March; a record entered on 2 March without a
    date is dated 1 March. *)
Lemma default_date_is_snapshot_witness :
  dates (snd (add_mood_record march_2 "" "4"
                (snd (MoodTrackerCLI march_1 "poems.db"
                        [(march_1, Key1 "2024-02-28" "9"); (march_2, Key2)]))))
  = dates (snd (MoodTrackerCLI march_1 "poems.db"
                  [(march_1, Key1 "2024-02-28" "9"); (march_2, Key2)]))
    ++ ["2024-03-01"].
Proof.
  pose proof (default_date_is_snapshot march_1 "poems.db"
                [(march_1, Key1 "2024-02-28" "9"); (march_2, Key2)]
                march_2 "4") as H.
  cbv zeta in H. destruct H as (_ & _ & _ & Hadd).
  assert (Hrange : 1 <= 4 <= 10) by lia.
  destruct (Hadd 4 eq_refl Hrange) as (_ & Hd & _).
  exact Hd.
Defined.

End Instances.

(* ================================================================= *)
(** * Further properties *)

Import Py Json ScrapePoems MoodTracker Batch Terminal.

(** ** Insertion of a batch *)

Section BatchInsert.

Local Open Scope string_scope.
Local Open Scope list_scope.
Local Open Scope Z_scope.

Lemma fold_max_ge_init (l : list Z) (a : Z) : a <= fold_left Z.max l a.
Proof.
  revert a. induction l as [|x l IH]; intros a; cbn; [lia|].
  specialize (IH (Z.max a x)). lia.
Qed.

Lemma fold_max_ge_each (l : list Z) (a x : Z) :
  In x l -> x <= fold_left Z.max l a.
Proof.
  revert a. induction l as [|y l IH]; intros a; cbn [In fold_left];
    [intros []|].
  intros [-> | Hin]; [|now apply IH].
  pose proof (fold_max_ge_init l (Z.max a x)). lia.
Qed.

(** [MAX (id)] is at least every key of the table. *)
Lemma coalesce_max_id_ge (rows : list poem_row) (r : poem_row) :
  In r rows -> id r <= coalesce_max_id rows.
Proof.
  unfold coalesce_max_id, max_id. destruct rows as [|r0 rest];
    [intros []|].
  intros [<- | Hin]; [apply fold_max_ge_init|].
  apply fold_max_ge_each. now apply in_map.
Qed.

(** After a row with the next key, [MAX (id)] is that key. *)
Lemma coalesce_max_id_next (rows : list poem_row) (r : poem_row) :
  id r = coalesce_max_id rows + 1 ->
  coalesce_max_id (rows ++ [r]) = coalesce_max_id rows + 1.
Proof.
  unfold coalesce_max_id, max_id. intros H.
  destruct rows as [|r0 rest]; cbn [app map fold_left] in *.
  - exact H.
  - rewrite map_app, fold_left_app. cbn [map fold_left]. lia.
Qed.

Lemma complete_negb (p : poem_dict) :
  negb (str_truthy (strip (get_or_empty (d_poem_name p))))
  || negb (str_truthy (strip (get_or_empty (d_writer_name p))))
  || negb (str_truthy (strip (get_or_empty (d_poem_text p))))
  = negb (complete p).
Proof.
  unfold complete, field_name, field_writer, field_text.
  now rewrite !negb_andb.
Qed.

(** The loop of [insert_poems_to_duckdb] in closed form: the complete
    poems are appended in their order with consecutive keys, as many as
    keys are left below the largest [INTEGER]. *)
Lemma insert_loop_closed_form (m : string) (poems : list poem_dict) :
  forall (rows : list poem_row) (n : Z),
    fold_left (insert_one m) poems (rows, n) =
    (rows ++ rows_from (coalesce_max_id rows + 1) m
               (firstn (Z.to_nat (int32_max - coalesce_max_id rows))
                       (filter complete poems)),
     n + Z.of_nat (List.length
                     (firstn (Z.to_nat (int32_max - coalesce_max_id rows))
                             (filter complete poems)))).
Proof.
  induction poems as [|p rest IH]; intros rows n.
  - cbn [fold_left filter]. rewrite firstn_nil.
    cbn [rows_from List.length]. rewrite app_nil_r. f_equal.
    change (Z.of_nat 0) with 0. lia.
  - cbn [fold_left filter]. unfold insert_one at 2.
    rewrite complete_negb.
    destruct (complete p) eqn:Ec; cbn [negb].
    + unfold insert_row. cbn [id].
      destruct (coalesce_max_id rows + 1 <=? int32_max) eqn:Efit.
      * apply Z.leb_le in Efit. rewrite IH.
        rewrite coalesce_max_id_next by reflexivity.
        replace (Z.to_nat (int32_max - coalesce_max_id rows))
          with (S (Z.to_nat (int32_max - (coalesce_max_id rows + 1))))
          by lia.
        cbn [firstn rows_from List.length].
        rewrite <- app_assoc. cbn [app].
        fold (field_name p) (field_writer p) (field_text p).
        f_equal. lia.
      * apply Z.leb_gt in Efit. rewrite IH.
        replace (Z.to_nat (int32_max - coalesce_max_id rows)) with 0%nat
          by lia.
        reflexivity.
    + apply IH.
Qed.

Lemma rows_from_length (next_id : Z) (m : string) (ps : list poem_dict) :
  List.length (rows_from next_id m ps) = List.length ps.
Proof.
  revert next_id. induction ps as [|p r IH]; intros next_id; cbn;
    [reflexivity | now rewrite IH].
Qed.

Lemma rows_from_ids (next_id : Z) (m : string) (ps : list poem_dict)
    (r : poem_row) :
  In r (rows_from next_id m ps) ->
  next_id <= id r < next_id + Z.of_nat (List.length ps) /\
  mood_type r = m /\
  exists p, In p ps /\ poem_name r = field_name p /\
            writer_name r = field_writer p /\ poem_text r = field_text p.
Proof.
  revert next_id. induction ps as [|p rest IH]; intros next_id; cbn [rows_from];
    [intros []|].
  intros [<- | Hin].
  - cbn. split; [lia|]. split; [reflexivity|]. exists p. cbn. auto.
  - apply IH in Hin. destruct Hin as (Hid & Hm & q & Hq & Hf).
    cbn [List.length]. split; [lia|]. split; [exact Hm|].
    exists q. split; [now right | exact Hf].
Qed.

Lemma rows_from_NoDup (next_id : Z) (m : string) (ps : list poem_dict) :
  NoDup (map id (rows_from next_id m ps)).
Proof.
  revert next_id. induction ps as [|p rest IH]; intros next_id; cbn;
    constructor; [|apply IH].
  intros Hin. apply in_map_iff in Hin. destruct Hin as (r & Hid & Hin).
  apply rows_from_ids in Hin. lia.
Qed.

(** X3.  [insert_poems_to_duckdb] in full.  With no poem it returns 0 and
    opens nothing.  Otherwise a file that is not a database makes it leave
    with the exception of [duckdb.connect]; a missing file or table is
    created; and the rows already stored are kept, followed by one row for
    each poem whose three fields are not empty once stripped, in the order
    of the list, with keys counted up from the largest key, for as long as
    the keys fit the column.  The number returned is the number of rows
    added. *)
Theorem insert_poems_to_duckdb_closed_form (poems : list poem_dict)
    (m path : string) (fs : filesystem) :
  match poems, fs path with
  | [], _ => insert_poems_to_duckdb poems m path fs = Ok (0, fs)
  | _ :: _, NotADatabase =>
      insert_poems_to_duckdb poems m path fs = Raise DuckDBError
  | _ :: _, f =>
      let rows := match f with Database (Some rows) => rows | _ => [] end in
      let added :=
        rows_from (coalesce_max_id rows + 1) m
          (firstn (Z.to_nat (int32_max - coalesce_max_id rows))
                  (filter complete poems)) in
      insert_poems_to_duckdb poems m path fs =
      Ok (Z.of_nat (List.length added),
          write_file fs path (Database (Some (rows ++ added))))
  end.
Proof.
  destruct poems as [|p rest]; [reflexivity|].
  unfold insert_poems_to_duckdb, init_duckdb, connect.
  destruct (fs path) as [| |[rows|]]; cbn [bind]; cbv zeta.
  - rewrite insert_loop_closed_form, rows_from_length. reflexivity.
  - reflexivity.
  - rewrite insert_loop_closed_form, rows_from_length. reflexivity.
  - rewrite insert_loop_closed_form, rows_from_length. reflexivity.
Qed.

Lemma in_firstn {A : Type} (n : nat) (l : list A) (x : A) :
  In x (firstn n l) -> In x l.
Proof.
  intros H. rewrite <- (firstn_skipn n l). apply in_or_app. now left.
Qed.

(** The rows added by a batch: keys above the keys stored and within the
    column, the mood given, and the stripped fields of a complete poem of
    the batch. *)
Lemma added_rows_facts (m : string) (rows : list poem_row)
    (poems : list poem_dict) (r : poem_row) :
  In r (rows_from (coalesce_max_id rows + 1) m
          (firstn (Z.to_nat (int32_max - coalesce_max_id rows))
                  (filter complete poems))) ->
  coalesce_max_id rows < id r <= int32_max /\ mood_type r = m /\
  exists p, In p poems /\ complete p = true /\
    poem_name r = field_name p /\ writer_name r = field_writer p /\
    poem_text r = field_text p.
Proof.
  intros Hin. apply rows_from_ids in Hin.
  destruct Hin as (Hid & Hm & p & Hp & Hf).
  pose proof (firstn_le_length (Z.to_nat (int32_max - coalesce_max_id rows))
                (filter complete poems)) as Hk.
  split; [lia|]. split; [exact Hm|].
  apply in_firstn in Hp. apply filter_In in Hp. destruct Hp as [Hp Hc].
  exists p. split; [exact Hp|]. split; [exact Hc | exact Hf].
Qed.

(** X4.  A batch never disturbs the table: the rows stored before stay
    first and unchanged, the number returned counts the rows added, no
    more than the poems given, and other files are left alone.  Each row
    added carries the mood given and the stripped fields, none empty, of
    a poem of the batch, under a key larger than every key stored before
    and within the column.  If the keys of the table were all different
    they still are. *)
Theorem insert_poems_keeps_table (poems : list poem_dict) (m path : string)
    (fs : filesystem) (rows : list poem_row) :
  fs path = Database (Some rows) ->
  exists (fs' : filesystem) (added : list poem_row),
    insert_poems_to_duckdb poems m path fs
      = Ok (Z.of_nat (List.length added), fs') /\
    fs' path = Database (Some (rows ++ added)) /\
    (forall other, other <> path -> fs' other = fs other) /\
    (List.length added <= List.length poems)%nat /\
    (forall r, In r added ->
       (forall old, In old rows -> id old < id r) /\
       id r <= int32_max /\ mood_type r = m /\
       exists p, In p poems /\
         poem_name r = strip (get_or_empty (d_poem_name p)) /\
         writer_name r = strip (get_or_empty (d_writer_name p)) /\
         poem_text r = strip (get_or_empty (d_poem_text p)) /\
         poem_name r <> "" /\ writer_name r <> "" /\ poem_text r <> "") /\
    (NoDup (map id rows) -> NoDup (map id (rows ++ added))).
Proof.
  intros Hfs.
  destruct poems as [|p0 rest].
  - exists fs, []. rewrite app_nil_r.
    split; [reflexivity|]. split; [exact Hfs|].
    split; [intros; reflexivity|]. split; [apply Nat.le_refl|].
    split; [intros r [] | auto].
  - set (poems := p0 :: rest).
    set (added := rows_from (coalesce_max_id rows + 1) m
                    (firstn (Z.to_nat (int32_max - coalesce_max_id rows))
                            (filter complete poems))).
    exists (write_file fs path (Database (Some (rows ++ added)))), added.
    split.
    { unfold insert_poems_to_duckdb, init_duckdb, connect. fold poems.
      rewrite Hfs. cbn [bind]. rewrite insert_loop_closed_form.
      unfold added. rewrite !rows_from_length. reflexivity. }
    split.
    { unfold write_file. rewrite String.eqb_refl. reflexivity. }
    split.
    { intros other Hne. unfold write_file.
      apply String.eqb_neq in Hne. rewrite Hne. reflexivity. }
    split.
    { unfold added. rewrite rows_from_length, length_firstn.
      pose proof (filter_length_le complete poems). lia. }
    split.
    { intros r Hr. apply added_rows_facts in Hr.
      destruct Hr as (Hid & Hm & p & Hp & Hc & Hn & Hw & Ht).
      split.
      { intros old Hold. apply coalesce_max_id_ge in Hold. lia. }
      split; [lia|]. split; [exact Hm|].
      exists p. unfold complete in Hc.
      apply andb_true_iff in Hc. destruct Hc as [Hc Hc3].
      apply andb_true_iff in Hc. destruct Hc as [Hc1 Hc2].
      rewrite Hn, Hw, Ht. repeat split; try assumption.
      - intros E. rewrite E in Hc1. discriminate.
      - intros E. rewrite E in Hc2. discriminate.
      - intros E. rewrite E in Hc3. discriminate. }
    intros Hnd. rewrite map_app. apply NoDup_app.
    + exact Hnd.
    + apply rows_from_NoDup.
    + intros key Hold Hnew.
      apply in_map_iff in Hold. destruct Hold as (old & <- & Hold).
      apply in_map_iff in Hnew. destruct Hnew as (new & Heq & Hr).
      apply added_rows_facts in Hr. apply coalesce_max_id_ge in Hold. lia.
Qed.

(** A table of two rows, and a batch of three poems of which the second
    lacks its writer. *)
Lemma insert_poems_keeps_table_witness :
  exists (fs' : filesystem) (added : list poem_row),
    insert_poems_to_duckdb
      [mk_poem (Some " Ode ") (Some "Keats") (Some "Line");
       mk_poem (Some "Song") None (Some "Line");
       mk_poem (Some "Dirge") (Some "Shelley") (Some "Rough wind")]
      "sad" "poems.db" (files Sample.march_1)
    = Ok (Z.of_nat (List.length added), fs') /\
    fs' "poems.db" =
      Database (Some
        ([mk_row 1 "Daffodils" "Wordsworth" "I wandered" "happy";
          mk_row 2 "Dirge" "Shelley" "Rough wind" "sad"] ++ added)).
Proof.
  destruct (insert_poems_keeps_table
              [mk_poem (Some " Ode ") (Some "Keats") (Some "Line");
               mk_poem (Some "Song") None (Some "Line");
               mk_poem (Some "Dirge") (Some "Shelley") (Some "Rough wind")]
              "sad" "poems.db" (files Sample.march_1) _ eq_refl)
    as (fs' & added & Hins & Hfs & _).
  exists fs', added. split; [exact Hins | exact Hfs].
Defined.

Lemma rows_from_has (next_id : Z) (m : string) (ps : list poem_dict)
    (p : poem_dict) :
  In p ps ->
  exists r, In r (rows_from next_id m ps) /\ mood_type r = m /\
    poem_of_row r = mk_poem_result (field_name p) (field_writer p)
                      (field_text p).
Proof.
  revert next_id. induction ps as [|q rest IH]; intros next_id; [intros []|].
  intros [-> | Hin]; cbn [rows_from].
  - eexists. split; [now left|]. split; reflexivity.
  - destruct (IH (next_id + 1) Hin) as (r & Hr & Hf).
    exists r. split; [now right | exact Hf].
Qed.

(** With keys enough for the complete poems, all of them are added. *)
Lemma insert_poems_keeps_table_aux (poems : list poem_dict) (m path : string)
    (fs : filesystem) (rows : list poem_row) :
  fs path = Database (Some rows) ->
  coalesce_max_id rows + Z.of_nat (List.length (filter complete poems))
    <= int32_max ->
  exists fs' : filesystem,
    insert_poems_to_duckdb poems m path fs
      = Ok (Z.of_nat (List.length (filter complete poems)), fs') /\
    fs' path = Database (Some (rows ++
                 rows_from (coalesce_max_id rows + 1) m
                   (filter complete poems))).
Proof.
  intros Hfs Hroom. destruct poems as [|p0 rest].
  - exists fs. split; [reflexivity|].
    cbn [filter rows_from]. rewrite app_nil_r. exact Hfs.
  - set (poems := p0 :: rest) in *.
    eexists. split.
    + unfold insert_poems_to_duckdb, init_duckdb, connect. fold poems.
      rewrite Hfs. cbn [bind]. rewrite insert_loop_closed_form.
      rewrite firstn_all2 by lia. reflexivity.
    + unfold write_file. rewrite String.eqb_refl. reflexivity.
Qed.

(** X5.  Every complete poem of a batch can be read back.  When the keys
    left in the column suffice for the complete poems of the batch, and
    the batch goes in under the mood of a score, then for each of them
    some draw makes [get_poem_by_mood], asked with that score, return its
    name, writer and text, stripped. *)
Theorem batch_poems_retrievable (poems : list poem_dict) (path : string)
    (fs : filesystem) (rows : list poem_row) (mood_score : Z)
    (self : session) (p : poem_dict) :
  fs path = Database (Some rows) ->
  db_path self = path ->
  coalesce_max_id rows + Z.of_nat (List.length (filter complete poems))
    <= int32_max ->
  In p poems ->
  complete p = true ->
  exists (fs' : filesystem) (n : Z) (draw : nat),
    insert_poems_to_duckdb poems
      (if mood_score >=? 6 then "happy" else "sad") path fs = Ok (n, fs') /\
    forall day net,
      get_poem_by_mood (mk_world day fs' draw net) mood_score self =
      (Ok (Some (mk_poem_result (strip (get_or_empty (d_poem_name p)))
                   (strip (get_or_empty (d_writer_name p)))
                   (strip (get_or_empty (d_poem_text p))))), self).
Proof.
  intros Hfs Hpath Hroom Hp Hc.
  set (m := if mood_score >=? 6 then "happy" else "sad").
  destruct (insert_poems_keeps_table_aux poems m path fs rows Hfs Hroom)
    as (fs' & Hins & Hfs').
  assert (Hin : In p (filter complete poems)) by now apply filter_In.
  destruct (rows_from_has (coalesce_max_id rows + 1) m _ p Hin)
    as (r & Hr & Hm & Hpoem).
  set (table := rows ++ rows_from (coalesce_max_id rows + 1) m
                          (filter complete poems)) in *.
  assert (Hrow : In r (filter (has_mood m) table)).
  { apply filter_In. split; [apply in_or_app; now right|].
    unfold has_mood. rewrite Hm. apply String.eqb_refl. }
  apply In_nth_error in Hrow. destruct Hrow as [draw Hdraw].
  exists fs', (Z.of_nat (List.length (filter complete poems))), draw.
  split; [exact Hins|].
  intros day net. rewrite get_poem_by_mood_eq. cbn [files random].
  rewrite Hpath, Hfs'. cbv zeta. fold m.
  rewrite Nat.mod_small by (apply nth_error_Some; rewrite Hdraw; discriminate).
  rewrite Hdraw. cbn [option_map]. rewrite Hpoem. reflexivity.
Qed.

Lemma batch_poems_retrievable_witness :
  exists (fs' : filesystem) (n : Z) (draw : nat),
    insert_poems_to_duckdb
      [mk_poem (Some " Ode ") (Some "Keats") (Some "Line");
       mk_poem (Some "Song") None (Some "Line");
       mk_poem (Some "Dirge") (Some "Shelley ") (Some "Rough wind")]
      (if 2 >=? 6 then "happy" else "sad") "poems.db" (files Sample.march_1)
    = Ok (n, fs') /\
    forall day net,
      get_poem_by_mood (mk_world day fs' draw net) 2
        (mk_session [] [] "2024-03-01" "poems.db") =
      (Ok (Some (mk_poem_result (strip (get_or_empty (Some "Dirge")))
                   (strip (get_or_empty (Some "Shelley ")))
                   (strip (get_or_empty (Some "Rough wind"))))),
       mk_session [] [] "2024-03-01" "poems.db").
Proof.
  apply (batch_poems_retrievable
           [mk_poem (Some " Ode ") (Some "Keats") (Some "Line");
            mk_poem (Some "Song") None (Some "Line");
            mk_poem (Some "Dirge") (Some "Shelley ") (Some "Rough wind")]
           "poems.db" (files Sample.march_1) _ 2
           (mk_session [] [] "2024-03-01" "poems.db")
           (mk_poem (Some "Dirge") (Some "Shelley ") (Some "Rough wind"))
           eq_refl eq_refl).
  - vm_compute. discriminate.
  - right. right. now left.
  - reflexivity.
Defined.

End BatchInsert.

(** ** The keyboard *)

Section Keyboard.

Local Open Scope list_scope.
Local Open Scope Z_scope.

Lemma string_length_append (s t : string) :
  String.length (s ++ t)%string = (String.length s + String.length t)%nat.
Proof. induction s as [|c s IH]; cbn; [reflexivity | now rewrite IH]. Qed.

Lemma string_append_assoc (s t u : string) :
  ((s ++ t) ++ u)%string = (s ++ (t ++ u))%string.
Proof. induction s as [|c s IH]; cbn; [reflexivity | now rewrite IH]. Qed.

Lemma string_append_nil_r (s : string) : (s ++ "")%string = s.
Proof. induction s as [|c s IH]; cbn; [reflexivity | now rewrite IH]. Qed.

Lemma drop_last_append (s : string) (c : ascii) :
  drop_last (s ++ String c EmptyString) = s.
Proof.
  induction s as [|d s IH]; [reflexivity|].
  cbn [append drop_last]. rewrite IH.
  destruct s; reflexivity.
Qed.

Lemma drop_last_length (s : string) :
  String.length (drop_last s) = pred (String.length s).
Proof.
  induction s as [|c s IH]; [reflexivity|].
  destruct s as [|d s]; [reflexivity|].
  change (drop_last (String c (String d s)))
    with (String c (drop_last (String d s))).
  cbn [String.length] in *. now rewrite IH.
Qed.

Lemma drop_last_printable (s : string) :
  all_printable s = true -> all_printable (drop_last s) = true.
Proof.
  induction s as [|c s IH]; [reflexivity|].
  destruct s as [|d s]; [reflexivity|].
  change (drop_last (String c (String d s)))
    with (String c (drop_last (String d s))).
  cbn [all_printable] in *. rewrite !andb_true_iff. intros [Hc Hs].
  split; [exact Hc|]. apply IH. now apply andb_true_iff.
Qed.

Lemma all_printable_append (s t : string) :
  all_printable (s ++ t)%string = all_printable s && all_printable t.
Proof.
  induction s as [|c s IH]; cbn; [reflexivity|].
  now rewrite IH, andb_assoc.
Qed.

Lemma chr_printable (char : Z) :
  printable char = true -> all_printable (chr char) = true.
Proof.
  unfold printable, chr. rewrite andb_true_iff, !Z.leb_le. intros [Hlo Hhi].
  cbn [all_printable]. rewrite nat_ascii_embedding by lia.
  rewrite Z2Nat.id by lia. unfold printable.
  rewrite andb_true_r, andb_true_iff, !Z.leb_le. lia.
Qed.

Lemma typed_printable (chars : list Z) :
  forallb printable chars = true -> all_printable (typed chars) = true.
Proof.
  induction chars as [|c r IH]; [reflexivity|].
  cbn [forallb typed]. rewrite andb_true_iff. intros [Hc Hr].
  change (String (ascii_of_nat (Z.to_nat c)) (typed r))
    with (chr c ++ typed r)%string.
  rewrite all_printable_append, chr_printable, IH by assumption.
  reflexivity.
Qed.

Lemma typed_length (chars : list Z) :
  String.length (typed chars) = List.length chars.
Proof. induction chars as [|c r IH]; cbn; [reflexivity | now rewrite IH]. Qed.

(** One step of the loop on a key that is a character. *)
Lemma get_input_loop_char (char : Z) (rest : list Z) (max_length : Z)
    (s : string) :
  printable char = true ->
  Z.of_nat (String.length s) < max_length ->
  get_input_loop (char :: rest) max_length s =
  get_input_loop rest max_length (s ++ chr char).
Proof.
  unfold printable. intros Hp Hlen.
  pose proof Hp as Hp'. rewrite andb_true_iff, !Z.leb_le in Hp'.
  cbn [get_input_loop].
  replace (Z.of_nat (String.length s) <? max_length) with true
    by (symmetry; apply Z.ltb_lt; lia).
  replace (char =? 10) with false by (symmetry; apply Z.eqb_neq; lia).
  replace (char =? 13) with false by (symmetry; apply Z.eqb_neq; lia).
  replace (char =? 127) with false by (symmetry; apply Z.eqb_neq; lia).
  replace (char =? 8) with false by (symmetry; apply Z.eqb_neq; lia).
  cbn [orb]. now rewrite Hp.
Qed.

Lemma get_input_loop_chars (chars rest : list Z) (max_length : Z) :
  forallb printable chars = true ->
  forall s,
    Z.of_nat (String.length s + List.length chars) <= max_length ->
    get_input_loop (chars ++ rest) max_length s =
    get_input_loop rest max_length (s ++ typed chars).
Proof.
  induction chars as [|c r IH]; intros Hp s Hlen.
  - cbn [app typed]. now rewrite string_append_nil_r.
  - cbn [forallb] in Hp. apply andb_true_iff in Hp. destruct Hp as [Hc Hr].
    cbn [List.length] in Hlen. cbn [app].
    rewrite get_input_loop_char by (try assumption; lia).
    rewrite IH; [|assumption|].
    + rewrite string_append_assoc. reflexivity.
    + rewrite string_length_append. cbn [chr String.length]. lia.
Qed.

Lemma get_input_loop_enter (e : Z) (rest : list Z) (max_length : Z)
    (s : string) :
  e = 10 \/ e = 13 ->
  Z.of_nat (String.length s) < max_length ->
  get_input_loop (e :: rest) max_length s = Some (s, rest).
Proof.
  intros He Hlen. cbn [get_input_loop].
  replace (Z.of_nat (String.length s) <? max_length) with true
    by (symmetry; apply Z.ltb_lt; lia).
  now destruct He as [-> | ->].
Qed.

Lemma get_input_loop_full (keys : list Z) (max_length : Z) (s : string) :
  max_length <= Z.of_nat (String.length s) ->
  get_input_loop keys max_length s = Some (s, keys).
Proof.
  intros Hlen.
  assert (E : (Z.of_nat (String.length s) <? max_length) = false)
    by (apply Z.ltb_ge; lia).
  destruct keys; cbn [get_input_loop]; now rewrite E.
Qed.

(** X6.  What is typed is what is returned.  Keys that are characters,
    fewer than the field takes, followed by Enter (line feed or carriage
    return), give the text they spell, and the keys after Enter are left.
    Keys that fill the field end the input at once: no Enter is read, and
    whatever follows, an Enter included, is left for the next read. *)
Theorem get_input_typed (chars rest : list Z) (max_length : Z) :
  forallb printable chars = true ->
  (Z.of_nat (List.length chars) < max_length ->
   forall e, e = 10 \/ e = 13 ->
     get_input (chars ++ (e :: rest)) max_length = Some (typed chars, rest)) /\
  (Z.of_nat (List.length chars) = max_length ->
   get_input (chars ++ rest) max_length = Some (typed chars, rest)).
Proof.
  intros Hp. unfold get_input. split.
  - intros Hlen e He.
    rewrite get_input_loop_chars by (cbn; try assumption; lia).
    cbn [append]. apply get_input_loop_enter; [exact He|].
    rewrite typed_length. exact Hlen.
  - intros Hlen.
    rewrite get_input_loop_chars by (cbn; try assumption; lia).
    cbn [append]. apply get_input_loop_full. rewrite typed_length. lia.
Qed.

(** The score "7" entered with Enter, and the score "10", which fills the
    field of two characters and leaves the Enter that follows. *)
Lemma get_input_typed_witness :
  get_input ([55] ++ (10 :: [49; 50])) 2 = Some (typed [55], [49; 50]) /\
  get_input ([49; 48] ++ [10; 50]) 2 = Some (typed [49; 48], [10; 50]).
Proof.
  split.
  - apply (proj1 (get_input_typed [55] [49; 50] 2 eq_refl)).
    + reflexivity.
    + now left.
  - apply (proj2 (get_input_typed [49; 48] [10; 50] 2 eq_refl)).
    reflexivity.
Defined.

(** One step of the loop on a key that is neither a character, nor Enter,
    nor a backspace. *)
Lemma get_input_loop_ignored (k : Z) (rest : list Z) (max_length : Z)
    (s : string) :
  printable k = false -> k <> 10 -> k <> 13 -> k <> 127 -> k <> 8 ->
  Z.of_nat (String.length s) < max_length ->
  get_input_loop (k :: rest) max_length s = get_input_loop rest max_length s.
Proof.
  unfold printable. intros Hp H10 H13 H127 H8 Hlen. cbn [get_input_loop].
  replace (Z.of_nat (String.length s) <? max_length) with true
    by (symmetry; apply Z.ltb_lt; lia).
  apply Z.eqb_neq in H10, H13, H127, H8.
  now rewrite H10, H13, H127, H8, Hp.
Qed.

Lemma get_input_loop_backspace (b : Z) (rest : list Z) (max_length : Z)
    (s : string) :
  b = 127 \/ b = 8 ->
  Z.of_nat (String.length s) < max_length ->
  get_input_loop (b :: rest) max_length s =
  get_input_loop rest max_length (drop_last s).
Proof.
  intros Hb Hlen. cbn [get_input_loop].
  replace (Z.of_nat (String.length s) <? max_length) with true
    by (symmetry; apply Z.ltb_lt; lia).
  assert (E : ((b =? 10) || (b =? 13)) = false) by now destruct Hb as [-> | ->].
  assert (E' : ((b =? 127) || (b =? 8)) = true) by now destruct Hb as [-> | ->].
  rewrite E, E'.
  destruct s as [|c s]; [reflexivity|].
  replace (Z.of_nat (String.length (String c s)) >? 0) with true;
    [reflexivity|].
  symmetry. apply Z.gtb_lt. cbn [String.length]. lia.
Qed.

(** X7.  Editing keys.  After characters that do not yet fill the field,
    a character followed by a backspace (code 127 or 8) is as if neither
    had been typed, provided the character does not fill the field; a
    backspace on the empty field does nothing; and a key that is no
    character, Enter or backspace (an arrow key, say) is ignored. *)
Theorem get_input_editing (chars rest : list Z) (max_length : Z) :
  forallb printable chars = true ->
  Z.of_nat (List.length chars) < max_length ->
  (forall c b, printable c = true -> b = 127 \/ b = 8 ->
     Z.of_nat (List.length chars) + 1 < max_length ->
     get_input (chars ++ c :: b :: rest) max_length =
     get_input (chars ++ rest) max_length) /\
  (forall b, b = 127 \/ b = 8 ->
     get_input (b :: rest) max_length = get_input rest max_length) /\
  (forall k, printable k = false ->
     k <> 10 -> k <> 13 -> k <> 127 -> k <> 8 ->
     get_input (chars ++ k :: rest) max_length =
     get_input (chars ++ rest) max_length).
Proof.
  intros Hp Hlen. unfold get_input. split; [|split].
  - intros c b Hc Hb Hroom.
    rewrite !get_input_loop_chars by (cbn; try assumption; lia).
    cbn [append].
    rewrite get_input_loop_char
      by (try assumption; rewrite typed_length; lia).
    rewrite get_input_loop_backspace;
      [|assumption|
       rewrite string_length_append, typed_length; cbn [chr String.length];
       lia].
    unfold chr. now rewrite drop_last_append.
  - intros b Hb. rewrite get_input_loop_backspace; [reflexivity|assumption|].
    cbn [String.length]. lia.
  - intros k Hk H10 H13 H127 H8.
    rewrite !get_input_loop_chars by (cbn; try assumption; lia).
    apply get_input_loop_ignored; try assumption.
    cbn [append]. rewrite typed_length. lia.
Qed.

(** In the date field: "2024" then "x" and a backspace; a backspace at
    the start; a key code 258 in the middle. *)
Lemma get_input_editing_witness :
  get_input ([50; 48; 50; 52] ++ 120 :: 127 :: [45; 10]) 10 =
  get_input ([50; 48; 50; 52] ++ [45; 10]) 10 /\
  get_input (8 :: [45; 10]) 10 = get_input [45; 10] 10 /\
  get_input ([50; 48; 50; 52] ++ 258 :: [45; 10]) 10 =
  get_input ([50; 48; 50; 52] ++ [45; 10]) 10.
Proof.
  assert (Hlen : Z.of_nat (List.length [50; 48; 50; 52]) < 10)
    by (cbn; lia).
  destruct (get_input_editing [50; 48; 50; 52] [45; 10] 10 eq_refl Hlen)
    as (Hback & Hempty & Hign).
  split; [|split].
  - apply Hback; [reflexivity | now left | cbn; lia].
  - apply Hempty. now right.
  - apply Hign; [reflexivity | lia | lia | lia | lia].
Defined.

(** What the loop returns, from any text typed so far. *)
Lemma get_input_loop_bounds (keys : list Z) (max_length : Z) :
  forall (s out : string) (rest : list Z),
    get_input_loop keys max_length s = Some (out, rest) ->
    all_printable s = true ->
    all_printable out = true /\
    Z.of_nat (String.length out)
      <= Z.max max_length (Z.of_nat (String.length s)) /\
    (exists used, keys = used ++ rest) /\
    (Z.of_nat (String.length out) < max_length ->
     exists used e, keys = used ++ e :: rest /\ (e = 10 \/ e = 13)).
Proof.
  induction keys as [|k keys IH]; intros s out rest Hget Hs.
  - cbn [get_input_loop] in Hget.
    destruct (Z.of_nat (String.length s) <? max_length) eqn:E;
      [discriminate|].
    apply Z.ltb_ge in E. inversion Hget; subst.
    split; [exact Hs|]. split; [lia|]. split; [now exists []|]. lia.
  - cbn [get_input_loop] in Hget.
    destruct (Z.of_nat (String.length s) <? max_length) eqn:E.
    2:{ apply Z.ltb_ge in E. inversion Hget; subst.
        split; [exact Hs|]. split; [lia|]. split; [now exists []|]. lia. }
    apply Z.ltb_lt in E.
    assert (Hstep : forall s',
      get_input_loop keys max_length s' = Some (out, rest) ->
      all_printable s' = true ->
      Z.of_nat (String.length s') <= max_length ->
      all_printable out = true /\
      Z.of_nat (String.length out)
        <= Z.max max_length (Z.of_nat (String.length s)) /\
      (exists used, k :: keys = used ++ rest) /\
      (Z.of_nat (String.length out) < max_length ->
       exists used e, k :: keys = used ++ e :: rest /\ (e = 10 \/ e = 13))).
    { intros s' Hget' Hs' Hlen'.
      destruct (IH s' out rest Hget' Hs') as (Ho & Hl & (u & Hu) & He).
      split; [exact Ho|]. split; [lia|]. split.
      - exists (k :: u). now rewrite Hu.
      - intros Hshort. destruct (He Hshort) as (u' & e & Hk & Henter).
        exists (k :: u'), e. split; [now rewrite Hk | exact Henter]. }
    destruct ((k =? 10) || (k =? 13)) eqn:Eenter.
    { inversion Hget; subst.
      split; [exact Hs|]. split; [lia|]. split; [now exists [k]|].
      intros _. exists [], k. split; [reflexivity|].
      apply orb_true_iff in Eenter. rewrite !Z.eqb_eq in Eenter. exact Eenter. }
    destruct ((k =? 127) || (k =? 8)).
    { destruct (Z.of_nat (String.length s) >? 0).
      - apply (Hstep _ Hget); [now apply drop_last_printable|].
        rewrite drop_last_length. lia.
      - apply (Hstep _ Hget); [exact Hs | lia]. }
    destruct ((32 <=? k) && (k <=? 126)) eqn:Ep.
    { apply (Hstep _ Hget).
      - rewrite all_printable_append, Hs. now apply chr_printable.
      - rewrite string_length_append. cbn [chr String.length]. lia. }
    apply (Hstep _ Hget); [exact Hs | lia].
Qed.

(** X8.  Whatever the keys, the text that [get_input] returns has at most
    [max_length] characters, all with codes from 32 to 126; the keys left
    are what follows the keys read; and a text shorter than the field was
    ended by Enter.  With a field of no length nothing is read. *)
Theorem get_input_bounds (keys : list Z) (max_length : Z) :
  match get_input keys max_length with
  | Some (out, rest) =>
      all_printable out = true /\
      Z.of_nat (String.length out) <= Z.max 0 max_length /\
      (exists used, keys = used ++ rest) /\
      (Z.of_nat (String.length out) < max_length ->
       exists used e, keys = used ++ e :: rest /\ (e = 10 \/ e = 13)) /\
      (max_length <= 0 -> out = EmptyString /\ rest = keys)
  | None => 0 < max_length
  end.
Proof.
  unfold get_input.
  destruct (get_input_loop keys max_length EmptyString) as [[out rest]|] eqn:E.
  - destruct (get_input_loop_bounds keys max_length _ _ _ E eq_refl)
      as (Ho & Hl & Hu & He).
    cbn [String.length] in Hl.
    split; [exact Ho|]. split; [lia|]. split; [exact Hu|].
    split; [exact He|].
    intros Hmax. rewrite get_input_loop_full in E by (cbn; lia).
    inversion E. now split.
  - destruct (Z_lt_dec 0 max_length) as [H|H]; [exact H|].
    rewrite get_input_loop_full in E by (cbn; lia). discriminate.
Qed.

End Keyboard.

(** ** The menu loop on the keys typed *)

Section MenuLoop.

Local Open Scope list_scope.
Local Open Scope Z_scope.

Lemma get_input_rest (keys : list Z) (max_length : Z) (out : string)
    (rest : list Z) :
  get_input keys max_length = Some (out, rest) ->
  (List.length rest <= List.length keys)%nat.
Proof.
  intros H.
  destruct (get_input_loop_bounds keys max_length _ _ _ H eq_refl)
    as (_ & _ & (used & ->) & _).
  rewrite length_app. lia.
Qed.

Lemma then_wait_agrees {A : Type} (c : M A) (keys : list Z)
    (self : session) :
  agrees keys (then_wait (c self) keys) ((c ;;; ret tt) self).
Proof.
  unfold agrees, then_wait, mbind, ret.
  destruct (c self) as [[a|e] self']; cbn [fst snd]; [|reflexivity].
  destruct keys as [|k keys]; cbn [press_any_key fst snd]; [reflexivity|].
  split; [reflexivity | cbn; lia].
Qed.

Lemma plot_mood_chart_io_agrees (w : world) (keys : list Z)
    (self : session) :
  agrees keys (plot_mood_chart_io keys self) (turn w Key3 self).
Proof.
  unfold agrees, plot_mood_chart_io, turn, mbind, ret.
  destruct (plot_mood_chart self) as [[[|xs ys]|e] self']; cbn [fst snd].
  - destruct keys as [|k keys]; cbn [press_any_key fst snd];
      [reflexivity|]. split; [reflexivity | cbn; lia].
  - split; [reflexivity | lia].
  - reflexivity.
Qed.

(** The method [add_mood_record] with its reads either waits in one of
    the two fields, the object untouched, or does what the turn for the
    two texts entered does. *)
Lemma add_mood_record_io_agrees (w : world) (keys : list Z)
    (self : session) :
  add_mood_record_io w keys self = (Waiting, self) \/
  exists date_input mood_input,
    all_printable date_input = true /\ all_printable mood_input = true /\
    (String.length date_input <= 10)%nat /\
    (String.length mood_input <= 2)%nat /\
    agrees keys (add_mood_record_io w keys self)
      (turn w (Key1 date_input mood_input) self).
Proof.
  unfold add_mood_record_io.
  destruct (get_input keys 10) as [[date_input keys1]|] eqn:E1;
    [|now left].
  destruct (get_input keys1 2) as [[mood_input keys2]|] eqn:E2;
    [|now left].
  right. exists date_input, mood_input.
  destruct (get_input_loop_bounds keys 10 _ _ _ E1 eq_refl)
    as (P1 & L1 & _).
  destruct (get_input_loop_bounds keys1 2 _ _ _ E2 eq_refl)
    as (P2 & L2 & _).
  cbn [String.length] in L1, L2.
  split; [exact P1|]. split; [exact P2|]. split; [lia|]. split; [lia|].
  pose proof (get_input_rest _ _ _ _ E1) as R1.
  pose proof (get_input_rest _ _ _ _ E2) as R2.
  pose proof (then_wait_agrees (add_mood_record w date_input mood_input)
                keys2 self) as H.
  unfold agrees in *. cbn [turn].
  destruct (fst (then_wait _ keys2)) as [rest| |e]; try exact H.
  destruct H as [H Hlen]. split; [exact H | lia].
Qed.

Lemma run_cons_ok (w : world) (c : choice)
    (choices : list (world * choice)) (self self' : session) :
  c <> Key5 ->
  turn w c self = (Ok tt, self') ->
  run ((w, c) :: choices) self = run choices self'.
Proof.
  intros Hc Ht.
  assert (H : run ((w, c) :: choices) self
              = (turn w c ;;; run choices) self)
    by (destruct c; try reflexivity; congruence).
  rewrite H. unfold mbind. now rewrite Ht.
Qed.

Lemma run_single (w : world) (c : choice) (self : session) :
  c <> Key5 ->
  run [(w, c)] self =
  match turn w c self with
  | (Ok _, self') => (Ok tt, self')
  | (Raise e, self') => (Raise e, self')
  end.
Proof.
  intros Hc.
  assert (H : run [(w, c)] self = (turn w c ;;; run []) self)
    by (destruct c; try reflexivity; congruence).
  rewrite H. unfold mbind. destruct (turn w c self) as [[u|e] s'];
    reflexivity.
Qed.

(** The loop on keys does, turn by turn, what [run] does on the choices
    that the keys spell, and [fuel] turns suffice for [fuel] keys. *)
Lemma run_io_refines (world_at : nat -> world) (fuel : nat) :
  forall (keys : list Z) (self : session),
    (List.length keys <= fuel)%nat ->
    exists (e : ending) (choices : list (world * choice)),
      run_io fuel world_at keys self = Some (e, snd (run choices self)) /\
      fst (run choices self) =
        match e with Died err => Raise err | _ => Ok tt end.
Proof.
  induction fuel as [|fuel IH]; intros keys self Hlen.
  - destruct keys as [|k keys]; [|cbn in Hlen; lia].
    exists AwaitingKey, []. now split.
  - destruct keys as [|k rest].
    { exists AwaitingKey, []. now split. }
    cbn [List.length] in Hlen.
    set (w := world_at (List.length rest)).
    (* what follows a method that agrees with the turn for [c] *)
    assert (Hafter : forall (r : progress * session) (c : choice),
      c <> Key5 -> agrees rest r (turn w c self) ->
      exists e choices,
        match r with
        | (Returned rest', self') => run_io fuel world_at rest' self'
        | (Waiting, self') => Some (AwaitingKey, self')
        | (Crashed err, self') => Some (Died err, self')
        end = Some (e, snd (run choices self)) /\
        fst (run choices self) =
          match e with Died err => Raise err | _ => Ok tt end).
    { intros [[rest'| |err] self'] c Hc Hag; unfold agrees in Hag;
        cbn [fst snd] in Hag.
      - destruct Hag as [Ht Hl].
        destruct (IH rest' self') as (e & choices & Hrun & Hres); [lia|].
        exists e, ((w, c) :: choices).
        rewrite (run_cons_ok w c choices self self' Hc Ht). now split.
      - exists AwaitingKey, [(w, c)].
        rewrite run_single, Hag by exact Hc. now split.
      - exists (Died err), [(w, c)].
        rewrite run_single, Hag by exact Hc. now split. }
    cbn [run_io]. fold w. cbv zeta.
    destruct (k =? 49).
    { destruct (add_mood_record_io_agrees w rest self)
        as [Hwait | (d & m & _ & _ & _ & _ & Hag)].
      - rewrite Hwait. exists AwaitingKey, []. now split.
      - apply (Hafter _ (Key1 d m)); [discriminate | exact Hag]. }
    destruct (k =? 50).
    { apply (Hafter _ Key2); [discriminate|].
      apply (then_wait_agrees view_mood_records). }
    destruct (k =? 51).
    { apply (Hafter _ Key3); [discriminate|].
      apply plot_mood_chart_io_agrees. }
    destruct (k =? 52).
    { apply (Hafter _ Key4); [discriminate|].
      apply (then_wait_agrees (show_inspirations w)). }
    destruct (k =? 53).
    { exists (Exited rest), []. now split. }
    apply (Hafter (press_any_key rest, self) OtherKey); [discriminate|].
    unfold agrees. cbn [fst snd turn].
    destruct rest as [|k' rest']; cbn [press_any_key]; [reflexivity|].
    split; [reflexivity | cbn; lia].
Qed.


(** X10.  What the keyboard cannot do.  After any keys at all, the two
    lists of the session have the same length, every score recorded is a
    number from 1 to 10, and the date of the session is the one read when
    it was built. *)
Theorem session_io_invariants (world_at : nat -> world) (db_path : string)
    (keys : list Z) :
  exists (e : ending) (self : session),
    session_io world_at db_path keys = Some (e, self) /\
    List.length (dates self) = List.length (moods self) /\
    Forall in_range (moods self) /\
    current_date self = today (world_at (List.length keys)).
Proof.
  unfold session_io.
  destruct (run_io_refines world_at (List.length keys) keys
              (init (world_at (List.length keys)) db_path) (Nat.le_refl _))
    as (e & choices & Hrun & _).
  exists e. eexists. split; [exact Hrun|].
  destruct (run_state choices (init (world_at (List.length keys)) db_path))
    as (ds & ns & -> & Hl & Hf).
  cbn. auto.
Qed.

End MenuLoop.

(** ** The scraper *)

Import Scraper.

Section Strip.

Lemma lstrip_starts_clean (s : string) : starts_clean (lstrip_of is_space s).
Proof.
  induction s as [|c s IH]; cbn; [exact I|].
  destruct (is_space c) eqn:E; [exact IH | exact E].
Qed.

Lemma lstrip_fixed (s : string) :
  starts_clean s -> lstrip_of is_space s = s.
Proof. destruct s as [|c s]; cbn; [reflexivity|]. now intros ->. Qed.

Lemma rstrip_idempotent (s : string) :
  rstrip_of is_space (rstrip_of is_space s) = rstrip_of is_space s.
Proof.
  induction s as [|c s IH]; [reflexivity|].
  cbn [rstrip_of].
  destruct (rstrip_of is_space s) as [|d r] eqn:E.
  - destruct (is_space c) eqn:Ec; [reflexivity|].
    cbn [rstrip_of]. now rewrite Ec.
  - cbn [rstrip_of]. cbn [rstrip_of] in IH. now rewrite IH.
Qed.

Lemma rstrip_starts_clean (s : string) :
  starts_clean s -> starts_clean (rstrip_of is_space s).
Proof.
  destruct s as [|c s]; [exact (fun H => H)|].
  cbn [rstrip_of starts_clean]. intros Hc.
  destruct (rstrip_of is_space s); [now rewrite Hc | exact Hc].
Qed.

Lemma strip_starts_clean (s : string) : starts_clean (strip s).
Proof. apply rstrip_starts_clean, lstrip_starts_clean. Qed.

Lemma strip_ends_clean (s : string) :
  rstrip_of is_space (strip s) = strip s.
Proof. apply rstrip_idempotent. Qed.

Lemma stripped_iff (s : string) :
  stripped s <-> starts_clean s /\ rstrip_of is_space s = s.
Proof.
  unfold stripped. split.
  - intros H. rewrite <- H.
    split; [apply strip_starts_clean | apply strip_ends_clean].
  - intros [Hs He]. unfold strip. now rewrite lstrip_fixed, He.
Qed.

(** [strip] twice is [strip] once. *)
Lemma strip_stripped (s : string) : stripped (strip s).
Proof.
  apply stripped_iff.
  split; [apply strip_starts_clean | apply strip_ends_clean].
Qed.

Lemma rstrip_append_fixed (x y : string) :
  rstrip_of is_space y = y -> y <> EmptyString ->
  rstrip_of is_space (x ++ y) = (x ++ y)%string.
Proof.
  intros Hy Hne. induction x as [|c x IH]; [exact Hy|].
  cbn [append rstrip_of]. rewrite IH.
  destruct (x ++ y)%string as [|d r] eqn:E; [|reflexivity].
  destruct x; cbn in E; [contradiction | discriminate].
Qed.

(** Lines without white space around them, none empty, joined by line
    feeds, make a text without white space around it. *)
Lemma concat_stripped (sep : string) (ls : list string) :
  Forall (fun l => stripped l /\ l <> EmptyString) ls ->
  stripped (String.concat sep ls) /\
  (ls <> [] -> String.concat sep ls <> EmptyString).
Proof.
  induction 1 as [|l ls [Hl Hne] Hls IH].
  - split; [reflexivity | congruence].
  - destruct ls as [|l2 ls].
    + cbn [String.concat]. split; [exact Hl | intros _; exact Hne].
    + change (String.concat sep (l :: l2 :: ls))
        with (l ++ sep ++ String.concat sep (l2 :: ls))%string.
      destruct IH as [IH IHne].
      assert (Hrest : String.concat sep (l2 :: ls) <> EmptyString)
        by (apply IHne; discriminate).
      apply stripped_iff in Hl, IH. destruct Hl as [Hs _].
      destruct IH as [_ He].
      split.
      * apply stripped_iff. split.
        -- destruct l as [|c l]; [contradiction | exact Hs].
        -- rewrite <- string_append_assoc.
           now apply rstrip_append_fixed.
      * intros _. destruct l; [contradiction | discriminate].
Qed.

Lemma str_truthy_iff (s : string) : str_truthy s = true <-> s <> EmptyString.
Proof. destruct s; cbn; split; congruence. Qed.

End Strip.

Section Scrape.

Local Open Scope string_scope.
Local Open Scope list_scope.
Local Open Scope Z_scope.

Lemma extract_poem_name_stripped (h : header_elem) :
  stripped (extract_poem_name h).
Proof.
  unfold extract_poem_name.
  destruct (title_links h); [reflexivity | apply strip_stripped].
Qed.

Lemma extract_writer_name_stripped (h : header_elem) :
  stripped (extract_writer_name h).
Proof.
  unfold extract_writer_name.
  destruct (poet_names h) as [|poet ?]; [reflexivity|]. cbv zeta.
  destruct (poet_links poet); [|apply strip_stripped].
  destruct (after_first _ _); apply strip_stripped.
Qed.

Lemma extract_poem_text_stripped (b : blockquote_elem) :
  stripped (extract_poem_text b).
Proof.
  unfold extract_poem_text. apply concat_stripped.
  apply Forall_forall. intros l Hl. apply filter_In in Hl.
  destruct Hl as [Hin Ht]. apply in_map_iff in Hin.
  destruct Hin as (raw & <- & _).
  split; [apply strip_stripped | now apply str_truthy_iff].
Qed.

Lemma poem_if_whole_whole (n w t : string) (p : poem_dict) :
  stripped n -> stripped w -> stripped t ->
  poem_if_whole n w t = Some p -> whole p.
Proof.
  unfold poem_if_whole. intros Hn Hw Ht.
  destruct (str_truthy n && str_truthy w && str_truthy t) eqn:E;
    [|discriminate].
  apply andb_true_iff in E. destruct E as [E E3].
  apply andb_true_iff in E. destruct E as [E1 E2].
  apply str_truthy_iff in E1, E2, E3.
  intros H. inversion H. exists n, w, t. repeat split; assumption.
Qed.

Lemma first_whole_whole (h : header_elem) (bs : list blockquote_elem)
    (p : poem_dict) :
  first_whole (extract_poem_name h) (extract_writer_name h) bs = Some p ->
  whole p.
Proof.
  induction bs as [|b bs IH]; cbn [first_whole]; [discriminate|].
  destruct (poem_if_whole _ _ (extract_poem_text b)) as [q|] eqn:E;
    [|exact IH].
  intros H. inversion H; subst q.
  eapply poem_if_whole_whole; [| | |exact E].
  - apply extract_poem_name_stripped.
  - apply extract_writer_name_stripped.
  - apply extract_poem_text_stripped.
Qed.

Lemma by_post_whole (t : tree) : Forall whole (by_post t).
Proof.
  apply Forall_forall. intros p Hp. unfold by_post in Hp.
  apply in_flat_map in Hp. destruct Hp as ([hs bs] & _ & Hp).
  apply in_flat_map in Hp. destruct Hp as (h & _ & Hp). cbn [snd] in Hp.
  destruct (first_whole _ _ bs) as [q|] eqn:E; [|destruct Hp].
  destruct Hp as [<- | []]. now apply first_whole_whole in E.
Qed.

Lemma by_position_whole (hs : list header_elem)
    (bs : list blockquote_elem) :
  forall i, Forall whole (by_position i hs bs).
Proof.
  induction hs as [|h hs IH]; intros i; cbn [by_position]; [constructor|].
  apply Forall_app. split; [|apply IH].
  destruct (i <? List.length bs)%nat; [|constructor].
  destruct (nth_error bs i) as [b|]; [|constructor].
  destruct (poem_if_whole _ _ (extract_poem_text b)) as [q|] eqn:E;
    [|constructor].
  constructor; [|constructor].
  eapply poem_if_whole_whole; [| | |exact E].
  - apply extract_poem_name_stripped.
  - apply extract_writer_name_stripped.
  - apply extract_poem_text_stripped.
Qed.

Lemma by_position_length (hs : list header_elem)
    (bs : list blockquote_elem) :
  forall i,
    (List.length (by_position i hs bs)
     <= Nat.min (List.length hs) (List.length bs - i))%nat.
Proof.
  induction hs as [|h hs IH]; intros i; cbn [by_position List.length];
    [lia|].
  rewrite length_app. specialize (IH (S i)).
  destruct (i <? List.length bs)%nat eqn:E.
  - apply Nat.ltb_lt in E.
    destruct (nth_error bs i); [|cbn [List.length]; lia].
    destruct (poem_if_whole _ _ _); cbn [to_list List.length]; lia.
  - cbn [List.length]. apply Nat.ltb_ge in E. lia.
Qed.

Lemma scrape_whole_aux (p : page) :
  match scrape_poem_analysis p with
  | Poems poems => Forall whole poems
  | Error _ => True
  end.
Proof.
  destruct p as [message|t]; [exact I|].
  unfold scrape_poem_analysis.
  pose proof (by_post_whole t) as Hw.
  destruct (by_post t) as [|q qs]; [apply by_position_whole | exact Hw].
Qed.

(** X12.  What the scraper hands on.  A page that could not be fetched
    gives the error message and no poem.  Otherwise every poem returned
    has the three keys, each with a value that is not empty and has no
    white space around it; the poems found post by post are returned when
    there is one, and only when there is none are the headers and
    blockquotes of the whole page paired by position, which gives no more
    poems than there are headers, or blockquotes. *)
Theorem scrape_poem_analysis_whole (p : page) :
  match p, scrape_poem_analysis p with
  | FetchFailed message, r => r = Error ("Failed to fetch URL: " ++ message)
  | Fetched t, Poems poems =>
      Forall whole poems /\
      (by_post t <> [] -> poems = by_post t) /\
      (by_post t = [] ->
       poems = by_position 0 (all_headers t) (all_blockquotes t) /\
       (List.length poems
        <= Nat.min (List.length (all_headers t))
                   (List.length (all_blockquotes t)))%nat)
  | Fetched _, Error _ => False
  end.
Proof.
  destruct p as [message|t]; [reflexivity|].
  unfold scrape_poem_analysis.
  pose proof (by_post_whole t) as Hw.
  destruct (by_post t) as [|q qs] eqn:E.
  - split; [apply by_position_whole|]. split; [congruence|].
    intros _. split; [reflexivity|].
    pose proof (by_position_length (all_headers t) (all_blockquotes t) 0).
    lia.
  - split; [exact Hw|]. split; [reflexivity | discriminate].
Qed.

Lemma whole_complete (p : poem_dict) :
  whole p ->
  complete p = true /\
  mk_poem (Some (field_name p)) (Some (field_writer p))
          (Some (field_text p)) = p.
Proof.
  intros (n & w & t & -> & Hn & Hw & Ht & Sn & Sw & St).
  unfold complete, field_name, field_writer, field_text.
  cbn [d_poem_name d_writer_name d_poem_text get_or_empty].
  unfold stripped in Sn, Sw, St. rewrite Sn, Sw, St.
  apply str_truthy_iff in Hn, Hw, Ht. now rewrite Hn, Hw, Ht.
Qed.

Lemma filter_complete_whole (poems : list poem_dict) :
  Forall whole poems -> filter complete poems = poems.
Proof.
  induction 1 as [|p ps Hp _ IH]; [reflexivity|].
  cbn [filter]. destruct (whole_complete p Hp) as [-> _]. now rewrite IH.
Qed.

Lemma rows_from_whole (next_id : Z) (m : string) (poems : list poem_dict) :
  Forall whole poems ->
  map dict_of_row (rows_from next_id m poems) = poems /\
  Forall (fun r => mood_type r = m) (rows_from next_id m poems).
Proof.
  intros H. revert next_id.
  induction H as [|p ps Hp _ IH]; intros next_id; [now split|].
  cbn [rows_from map]. destruct (IH (next_id + 1)) as [IH1 IH2].
  split.
  - rewrite IH1. unfold dict_of_row at 1.
    cbn [poem_name writer_name poem_text].
    now destruct (whole_complete p Hp) as [_ ->].
  - constructor; [reflexivity | exact IH2].
Qed.

(** X13.  From the page to the table.  The poems that the scraper returns
    are all taken by [insert_poems_to_duckdb], none skipped, when the
    store opens and has keys left for them: the number returned is the
    number of poems scraped, and the rows added, in order, hold the names,
    writers and texts exactly as scraped, under the mood given. *)
Theorem scraped_poems_all_inserted (p : page) (poems : list poem_dict)
    (m path : string) (fs : filesystem) (rows : list poem_row) :
  scrape_poem_analysis p = Poems poems ->
  fs path = Database (Some rows) ->
  coalesce_max_id rows + Z.of_nat (List.length poems) <= int32_max ->
  exists (fs' : filesystem) (added : list poem_row),
    insert_poems_to_duckdb poems m path fs
      = Ok (Z.of_nat (List.length poems), fs') /\
    fs' path = Database (Some (rows ++ added)) /\
    map dict_of_row added = poems /\
    Forall (fun r => mood_type r = m) added.
Proof.
  intros Hscrape Hfs Hroom.
  assert (Hw : Forall whole poems).
  { pose proof (scrape_whole_aux p) as H. rewrite Hscrape in H. exact H. }
  pose proof (filter_complete_whole poems Hw) as Hall.
  destruct (insert_poems_keeps_table_aux poems m path fs rows Hfs)
    as (fs' & Hins & Hfs'); [now rewrite Hall|].
  rewrite Hall in Hins, Hfs'.
  destruct (rows_from_whole (coalesce_max_id rows + 1) m poems Hw)
    as [Hmap Hmood].
  exists fs', (rows_from (coalesce_max_id rows + 1) m poems).
  split; [exact Hins|]. split; [exact Hfs'|].
  split; [exact Hmap | exact Hmood].
Qed.

(** A page of three headers and two blockquotes without posts, scraped and
    stored under "hope" in the store of [march_1]. *)
Lemma scraped_poems_all_inserted_witness :
  exists (fs' : filesystem) (added : list poem_row),
    insert_poems_to_duckdb
      [mk_poem (Some "A") (Some "Link") (Some "l1");
       mk_poem (Some "B") (Some "Me") (Some "l2
l3")]
      "hope" "poems.db" (files Sample.march_1)
    = Ok (Z.of_nat (List.length
            [mk_poem (Some "A") (Some "Link") (Some "l1");
             mk_poem (Some "B") (Some "Me") (Some "l2
l3")]), fs') /\
    fs' "poems.db" =
      Database (Some
        ([mk_row 1 "Daffodils" "Wordsworth" "I wandered" "happy";
          mk_row 2 "Dirge" "Shelley" "Rough wind" "sad"] ++ added)) /\
    map dict_of_row added =
      [mk_poem (Some "A") (Some "Link") (Some "l1");
       mk_poem (Some "B") (Some "Me") (Some "l2
l3")] /\
    Forall (fun r => mood_type r = "hope"%string) added.
Proof.
  apply (scraped_poems_all_inserted sample_page _ "hope" "poems.db"
           (files Sample.march_1) _ eq_refl eq_refl).
  vm_compute. discriminate.
Defined.

End Scrape.

(** ** Entering a record at the keyboard *)

Section Entry.

Local Open Scope list_scope.
Local Open Scope Z_scope.

Lemma get_input_entered (chars rest : list Z) (max_length : Z) :
  forallb printable chars = true ->
  Z.of_nat (List.length chars) < max_length ->
  get_input (chars ++ 10 :: rest) max_length = Some (typed chars, rest).
Proof.
  intros Hp Hlen. unfold get_input.
  rewrite get_input_loop_chars by (cbn; try assumption; lia).
  cbn [append]. apply get_input_loop_enter; [now left|].
  rewrite typed_length. exact Hlen.
Qed.

Lemma get_input_filled (chars rest : list Z) (max_length : Z) :
  forallb printable chars = true ->
  Z.of_nat (List.length chars) = max_length ->
  get_input (chars ++ rest) max_length = Some (typed chars, rest).
Proof.
  intros Hp Hlen. unfold get_input.
  rewrite get_input_loop_chars by (cbn; try assumption; lia).
  cbn [append]. apply get_input_loop_full. rewrite typed_length. lia.
Qed.

Lemma py_int_digit (d : Z) :
  1 <= d <= 9 -> py_int (typed [48 + d]) = Ok d.
Proof.
  intros H.
  assert (E : d = 1 \/ d = 2 \/ d = 3 \/ d = 4 \/ d = 5 \/ d = 6 \/ d = 7
              \/ d = 8 \/ d = 9) by lia.
  repeat (destruct E as [-> | E]; [reflexivity|]). now subst.
Qed.

Lemma digit_printable (d : Z) :
  1 <= d <= 9 -> forallb printable [48 + d] = true.
Proof.
  intros H. cbn [forallb]. unfold printable.
  rewrite andb_true_r, andb_true_iff, !Z.leb_le. lia.
Qed.

Lemma typed_truthy (chars : list Z) :
  str_truthy (typed chars) = match chars with [] => false | _ => true end.
Proof. destruct chars; reflexivity. Qed.

(** The method on the two texts entered, when the score is read as a
    number from 1 to 9 or as 10, and a key follows. *)
Lemma add_mood_record_then_key (w : world) (date_input mood_input : string)
    (n k : Z) (rest : list Z) (self : session) :
  py_int mood_input = Ok n -> 1 <= n <= 10 ->
  then_wait (add_mood_record w date_input mood_input self) (k :: rest) =
  (Returned rest,
   mk_session
     (dates self ++ [if negb (str_truthy date_input) then current_date self
                     else date_input])
     (moods self ++ [n]) (current_date self) (db_path self)).
Proof.
  intros Hint Hrange.
  destruct (add_mood_record_accepts w date_input mood_input self n Hint
              Hrange) as (shown & t & ->).
  reflexivity.
Qed.

(** X11.  A record entered at the keyboard.  A date of fewer than ten
    characters ended by Enter, or Enter alone, then a digit from 1 to 9
    ended by Enter, then any key: one record is appended, with the date
    typed, or the date of the session when none was typed, and the digit
    as score.  The score 10 fills its field of two characters: it is
    taken without Enter, and the key after it is the one that ends the
    screen. *)
Theorem add_mood_record_io_entered (w : world) (date_chars rest : list Z)
    (d k : Z) (self : session) :
  forallb printable date_chars = true ->
  Z.of_nat (List.length date_chars) < 10 ->
  1 <= d <= 9 ->
  let date := match date_chars with
              | [] => current_date self
              | _ :: _ => typed date_chars
              end in
  let added := fun n =>
    mk_session (dates self ++ [date]) (moods self ++ [n])
      (current_date self) (db_path self) in
  add_mood_record_io w (date_chars ++ 10 :: (48 + d) :: 10 :: k :: rest) self
    = (Returned rest, added d) /\
  add_mood_record_io w (date_chars ++ 10 :: 49 :: 48 :: k :: rest) self
    = (Returned rest, added 10).
Proof.
  intros Hp Hlen Hd date added.
  assert (Hdate :
    (if negb (str_truthy (typed date_chars)) then current_date self
     else typed date_chars) = date).
  { rewrite typed_truthy. now destruct date_chars. }
  unfold add_mood_record_io. rewrite !get_input_entered by assumption.
  split.
  - change (48 + d :: 10 :: k :: rest) with ([48 + d] ++ 10 :: k :: rest).
    rewrite (get_input_entered [48 + d] (k :: rest) 2)
      by (first [apply digit_printable; lia | cbn; lia]).
    rewrite (add_mood_record_then_key w _ _ d) by
      (try apply py_int_digit; lia).
    now rewrite Hdate.
  - change (49 :: 48 :: k :: rest) with ([49; 48] ++ k :: rest).
    rewrite (get_input_filled [49; 48] (k :: rest) 2) by reflexivity.
    rewrite (add_mood_record_then_key w _ _ 10) by (try reflexivity; lia).
    now rewrite Hdate.
Qed.

(** "03-01", Enter, "7", Enter and a key; and Enter, "10" and a key. *)
Lemma add_mood_record_io_entered_witness :
  add_mood_record_io Sample.march_1
    ([48; 51; 45; 48; 49] ++ 10 :: (48 + 7) :: 10 :: 32 :: [53])
    (init Sample.march_1 "poems.db") =
  (Returned [53],
   mk_session ([] ++ [typed [48; 51; 45; 48; 49]]) ([] ++ [7])
     "2024-03-01" "poems.db") /\
  add_mood_record_io Sample.march_1
    ([] ++ 10 :: 49 :: 48 :: 32 :: [53])
    (init Sample.march_1 "poems.db") =
  (Returned [53],
   mk_session ([] ++ ["2024-03-01"%string]) ([] ++ [10])
     "2024-03-01" "poems.db").
Proof.
  assert (H7 : 1 <= 7 <= 9) by lia.
  assert (L5 : Z.of_nat (List.length [48; 51; 45; 48; 49]) < 10)
    by (cbn; lia).
  assert (L0 : Z.of_nat (@List.length Z []) < 10) by (cbn; lia).
  split.
  - exact (proj1 (add_mood_record_io_entered Sample.march_1
                    [48; 51; 45; 48; 49] [53] 7 32
                    (init Sample.march_1 "poems.db") eq_refl L5 H7)).
  - exact (proj2 (add_mood_record_io_entered Sample.march_1
                    [] [53] 7 32
                    (init Sample.march_1 "poems.db") eq_refl L0 H7)).
Defined.

(** X14.  A date of full length.  Ten characters fill the date field, so
    the field is left without Enter.  The score typed straight after is
    recorded under that date; but an Enter typed after the date is read
    as an empty score, and the record is refused as not a number: the
    object is unchanged, and the key after the Enter ends the screen. *)
Theorem add_mood_record_io_full_date (w : world) (date_chars rest : list Z)
    (d k : Z) (self : session) :
  forallb printable date_chars = true ->
  List.length date_chars = 10%nat ->
  1 <= d <= 9 ->
  add_mood_record_io w (date_chars ++ (48 + d) :: 10 :: k :: rest) self
    = (Returned rest,
       mk_session (dates self ++ [typed date_chars]) (moods self ++ [d])
         (current_date self) (db_path self)) /\
  add_mood_record_io w (date_chars ++ 10 :: k :: rest) self
    = (Returned rest, self) /\
  fst (add_mood_record w (typed date_chars) EmptyString self)
    = Ok InvalidInput.
Proof.
  intros Hp Hlen Hd.
  assert (Hdate :
    (if negb (str_truthy (typed date_chars)) then current_date self
     else typed date_chars) = typed date_chars).
  { rewrite typed_truthy. destruct date_chars; [discriminate | reflexivity]. }
  unfold add_mood_record_io.
  rewrite !get_input_filled by (try assumption; rewrite Hlen; reflexivity).
  split; [|split].
  - change (48 + d :: 10 :: k :: rest) with ([48 + d] ++ 10 :: k :: rest).
    rewrite (get_input_entered [48 + d] (k :: rest) 2)
      by (first [apply digit_printable; lia | cbn; lia]).
    rewrite (add_mood_record_then_key w _ _ d) by
      (try apply py_int_digit; lia).
    now rewrite Hdate.
  - change (10 :: k :: rest) with ([] ++ 10 :: k :: rest).
    rewrite (get_input_entered [] (k :: rest) 2)
      by (try reflexivity; cbn; lia).
    cbn [typed].
    rewrite (add_mood_record_not_a_number w _ EmptyString self ValueError)
      by reflexivity.
    reflexivity.
  - rewrite (add_mood_record_not_a_number w _ EmptyString self ValueError)
      by reflexivity.
    reflexivity.
Qed.

(** "2024-03-05" and Enter. *)
Lemma add_mood_record_io_full_date_witness :
  add_mood_record_io Sample.march_1
    ([50; 48; 50; 52; 45; 48; 51; 45; 48; 53] ++ 10 :: 55 :: [10; 32])
    (init Sample.march_1 "poems.db") =
  (Returned [10; 32], init Sample.march_1 "poems.db").
Proof.
  assert (H7 : 1 <= 7 <= 9) by lia.
  exact (proj1 (proj2 (add_mood_record_io_full_date Sample.march_1
                  [50; 48; 50; 52; 45; 48; 51; 45; 48; 53] [10; 32] 7 55
                  (init Sample.march_1 "poems.db") eq_refl eq_refl H7))).
Defined.

End Entry.

(** ** The poem on the screen *)

Import Display.

Section Screen.

Local Open Scope list_scope.
Local Open Scope Z_scope.

Lemma take_length (n : nat) (s : string) :
  String.length (take n s) = Nat.min n (String.length s).
Proof.
  revert s. induction n as [|n IH]; intros [|c s]; cbn; try reflexivity.
  now rewrite IH.
Qed.

Lemma take_all (n : nat) (s : string) :
  (String.length s <= n)%nat -> take n s = s.
Proof.
  revert s. induction n as [|n IH]; intros [|c s]; cbn; try reflexivity;
    try lia.
  intros H. rewrite IH by lia. reflexivity.
Qed.

(** The line as drawn never exceeds the width, once the width holds the
    three dots; a line that fits is drawn as it is, and a longer one is
    cut to the width exactly and ends in the dots. *)
Lemma display_line_width (max_width : Z) (poem_line : string) :
  3 <= max_width ->
  Z.of_nat (String.length (display_line max_width poem_line)) <= max_width /\
  (Z.of_nat (String.length poem_line) <= max_width ->
   display_line max_width poem_line = poem_line) /\
  (Z.of_nat (String.length poem_line) > max_width ->
   Z.of_nat (String.length (display_line max_width poem_line)) = max_width /\
   display_line max_width poem_line =
     (take (Z.to_nat (max_width - 3)) poem_line ++ "...")%string).
Proof.
  intros Hw. unfold display_line, slice_to.
  destruct (Z.of_nat (String.length poem_line) >? max_width) eqn:E.
  - apply Z.gtb_lt in E.
    replace (max_width - 3 >=? 0) with true
      by (symmetry; apply Z.geb_le; lia).
    assert (L : Z.of_nat (String.length
                  (take (Z.to_nat (max_width - 3)) poem_line ++ "...")%string)
                = max_width).
    { rewrite string_length_append, take_length. cbn [String.length]. lia. }
    split; [lia|]. split; [lia|]. intros _. now split.
  - rewrite Z.gtb_ltb in E. apply Z.ltb_ge in E.
    split; [lia|]. split; [reflexivity | lia].
Qed.

Lemma typewriter_window (current_line x_pos : Z) (s : string) :
  Forall (fun w => at_y w = current_line /\
                   x_pos <= at_x w < x_pos + Z.of_nat (String.length s) /\
                   String.length (text w) = 1%nat)
         (typewriter current_line x_pos s).
Proof.
  revert x_pos. induction s as [|c s IH]; intros x_pos; cbn [typewriter];
    constructor.
  - cbn [at_y at_x text String.length]. repeat split; lia.
  - eapply Forall_impl; [|apply IH].
    cbn [String.length]. intros w (Hy & Hx & Ht). repeat split; try lia; assumption.
Qed.

Lemma concat_char (c : ascii) (l : list string) :
  String.concat "" (String c "" :: l) = String c (String.concat "" l).
Proof. destruct l; reflexivity. Qed.

(** What the typewriter writes on a line spells the line. *)
Lemma typewriter_spells (current_line x_pos : Z) (s : string) :
  String.concat "" (map text (typewriter current_line x_pos s)) = s.
Proof.
  revert x_pos. induction s as [|c s IH]; intros x_pos; [reflexivity|].
  cbn [typewriter map text]. now rewrite concat_char, IH.
Qed.

(** The loop in closed form: as many lines are drawn as the limit, the
    lines of the screen above the last two, and the text allow. *)
Lemma draw_lines_closed_form (scr : screen) (max_lines : Z)
    (poem_lines : list string) :
  forall current_line lines_displayed,
    let n := Z.to_nat (Z.min (max_lines - lines_displayed)
                             (LINES scr - 2 - current_line)) in
    draw_lines scr max_lines poem_lines current_line lines_displayed =
    (rows_of scr current_line (firstn n poem_lines),
     current_line + Z.of_nat (Nat.min n (List.length poem_lines))).
Proof.
  induction poem_lines as [|l rest IH]; intros current_line lines_displayed n.
  - cbn [draw_lines]. rewrite firstn_nil. cbn [rows_of List.length].
    rewrite Nat.min_0_r. f_equal. lia.
  - cbn [draw_lines].
    destruct (lines_displayed >=? max_lines) eqn:E1.
    { apply Z.geb_le in E1. assert (n = 0%nat) as -> by (subst n; lia).
      cbn [firstn rows_of Nat.min]. f_equal. lia. }
    rewrite Z.geb_leb in E1. apply Z.leb_gt in E1.
    destruct (current_line >=? LINES scr - 2) eqn:E2.
    { apply Z.geb_le in E2. assert (n = 0%nat) as -> by (subst n; lia).
      cbn [firstn rows_of Nat.min]. f_equal. lia. }
    rewrite Z.geb_leb in E2. apply Z.leb_gt in E2.
    cbv zeta. rewrite IH.
    assert (Hn : n = S (Z.to_nat (Z.min (max_lines - (lines_displayed + 1))
                                        (LINES scr - 2 - (current_line + 1)))))
      by (subst n; lia).
    rewrite Hn. cbn [firstn rows_of List.length Nat.min]. f_equal. lia.
Qed.

Lemma rows_of_window (scr : screen) (poem_lines : list string) :
  3 <= COLS scr - 2 ->
  forall current_line,
    Forall (fun w =>
              current_line <= at_y w
                < current_line + Z.of_nat (List.length poem_lines) /\
              1 <= at_x w <= COLS scr - 2 /\
              String.length (text w) = 1%nat)
           (rows_of scr current_line poem_lines).
Proof.
  intros Hw. induction poem_lines as [|l rest IH]; intros current_line;
    cbn [rows_of]; [constructor|].
  apply Forall_app. split.
  - eapply Forall_impl; [|apply typewriter_window].
    destruct (display_line_width (COLS scr - 2) l Hw) as (Hlen & _).
    cbn [List.length]. intros w (Hy & Hx & Ht). repeat split; try lia; assumption.
  - eapply Forall_impl; [|apply (IH (current_line + 1))].
    cbn [List.length]. intros w (Hy & Hx & Ht). repeat split; try lia; assumption.
Qed.

(** X15.  How much of a poem is shown.  Without a poem [display_poem]
    writes the one message and returns the next line.  With a poem it
    writes the separator, the title, the writer and an empty line, and
    then the first lines of the text, one to a line of the screen from
    [start_line + 4]: as many as [max_lines], the lines of the screen
    above the last two, and the text allow.  It returns the line after
    the last one drawn. *)
Theorem display_poem_closed_form (scr : screen) (start_line : Z)
    (max_lines separator_length : Z) :
  display_poem scr None start_line max_lines separator_length =
    ([AddStr start_line 1 "No poem found in database for this mood."],
     start_line + 1) /\
  forall p : poem,
    let n := Z.to_nat (Z.min max_lines (LINES scr - 2 - (start_line + 4))) in
    display_poem scr (Some p) start_line max_lines separator_length =
    ([AddStr start_line 1 (times "-"%char separator_length);
      AddStr (start_line + 1) 1 ("Poem: " ++ r_poem_name p);
      AddStr (start_line + 2) 1 ("By: " ++ r_writer_name p);
      AddStr (start_line + 3) 1 ""]
     ++ rows_of scr (start_line + 4) (firstn n (lines_of p)),
     start_line + 4 + Z.of_nat (Nat.min n (List.length (lines_of p)))) /\
    (List.length (firstn n (lines_of p)) <= Z.to_nat max_lines)%nat.
Proof.
  split; [reflexivity|]. intros p n. split.
  - unfold display_poem. cbv zeta. fold (lines_of p).
    rewrite draw_lines_closed_form. rewrite Z.sub_0_r. fold n.
    reflexivity.
  - rewrite length_firstn. subst n. lia.
Qed.

(** X16.  Where the text of a poem is written.  On a terminal of five
    columns or more, every character of the text that [display_poem]
    draws is written alone, in a column from 1 to [COLS - 2] and on a line
    from [start_line + 4] on, above the last two lines of the screen and
    before the line returned.  A line of the text that fits the width
    [COLS - 2] is spelt whole; a longer one is cut to the width exactly
    and ends in three dots. *)
Theorem display_poem_window (scr : screen) (p : poem) (start_line : Z)
    (max_lines separator_length : Z) :
  5 <= COLS scr ->
  Forall (fun w =>
            start_line + 4 <= at_y w /\ at_y w < LINES scr - 2 /\
            at_y w < snd (display_poem scr (Some p) start_line max_lines
                            separator_length) /\
            1 <= at_x w <= COLS scr - 2 /\
            String.length (text w) = 1%nat)
         (skipn 4 (fst (display_poem scr (Some p) start_line max_lines
                          separator_length))) /\
  forall (current_line : Z) (poem_line : string),
    String.concat ""
      (map text (rows_of scr current_line [poem_line]))
      = display_line (COLS scr - 2) poem_line /\
    Z.of_nat (String.length (display_line (COLS scr - 2) poem_line))
      <= COLS scr - 2 /\
    (Z.of_nat (String.length poem_line) <= COLS scr - 2 ->
     display_line (COLS scr - 2) poem_line = poem_line) /\
    (Z.of_nat (String.length poem_line) > COLS scr - 2 ->
     display_line (COLS scr - 2) poem_line =
       (take (Z.to_nat (COLS scr - 5)) poem_line ++ "...")%string).
Proof.
  intros Hcols. assert (Hw : 3 <= COLS scr - 2) by lia. split.
  - unfold display_poem. cbv zeta. fold (lines_of p).
    rewrite draw_lines_closed_form. rewrite Z.sub_0_r.
    set (n := Z.to_nat (Z.min max_lines (LINES scr - 2 - (start_line + 4)))).
    cbn [fst snd skipn app].
    eapply Forall_impl;
      [|apply (rows_of_window scr (firstn n (lines_of p)) Hw)].
    intros w (Hy & Hx & Ht). rewrite length_firstn in Hy.
    repeat split; try lia; assumption.
  - intros current_line poem_line.
    destruct (display_line_width (COLS scr - 2) poem_line Hw)
      as (Hlen & Hfit & Hcut).
    split.
    { cbn [rows_of]. rewrite app_nil_r. apply typewriter_spells. }
    split; [exact Hlen|]. split; [exact Hfit|].
    intros Hlong. destruct (Hcut Hlong) as [_ ->].
    replace (COLS scr - 2 - 3) with (COLS scr - 5) by lia. reflexivity.
Qed.

(** A terminal of 24 lines and 20 columns, and a poem of three lines of
    which the first is too long; the poem is shown from line 6. *)
Lemma display_poem_window_witness :
  Forall (fun w =>
            6 + 4 <= at_y w /\ at_y w < 24 - 2 /\
            at_y w < snd (display_poem (mk_screen 24 20)
                            (Some (mk_poem_result "Daffodils" "Wordsworth"
                               "I wandered lonely as a cloud
That floats on high
"))
                            6 5 50) /\
            1 <= at_x w <= 20 - 2 /\
            String.length (text w) = 1%nat)
         (skipn 4 (fst (display_poem (mk_screen 24 20)
                          (Some (mk_poem_result "Daffodils" "Wordsworth"
                             "I wandered lonely as a cloud
That floats on high
"))
                          6 5 50))).
Proof.
  assert (Hcols : 5 <= COLS (mk_screen 24 20)) by (cbn; lia).
  exact (proj1 (display_poem_window (mk_screen 24 20)
                  (mk_poem_result "Daffodils" "Wordsworth"
                     "I wandered lonely as a cloud
That floats on high
")
                  6 5 50 Hcols)).
Defined.

End Screen.

(** ** What a record shows, and the first poem that suits *)

Import MoreSamples.

Section Shown.

Local Open Scope list_scope.
Local Open Scope Z_scope.

(** X17.  What is shown with a record.  When [add_mood_record] accepts a
    score, the poem it shows is the one that [get_poem_by_mood] gives for
    that score, and the trend line is worked out on the scores with the
    new one at the end: after two earlier scores it is the low line when
    those two and the new one are below 5, the high line when all three
    are above 5, and none otherwise; with fewer than two earlier scores
    there is none. *)
Theorem add_mood_record_shows (w : world) (date_input mood_input : string)
    (self : session) (n : Z) :
  py_int mood_input = Ok n ->
  1 <= n <= 10 ->
  exists (date : string) (shown : option poem) (t : trend),
    fst (add_mood_record w date_input mood_input self)
      = Ok (RecordAdded date n shown t) /\
    fst (get_poem_by_mood w n self) = Ok shown /\
    (forall p a b, moods self = p ++ [a; b] ->
       t = if (a <? 5) && (b <? 5) && (n <? 5) then LowStreak
           else if (a >? 5) && (b >? 5) && (n >? 5) then HighStreak
           else NoTrend) /\
    ((List.length (moods self) < 2)%nat -> t = NoTrend).
Proof.
  intros Hint Hrange.
  set (date := if negb (str_truthy date_input) then current_date self
               else date_input).
  set (self' := mk_session (dates self ++ [date]) (moods self ++ [n])
                  (current_date self) (db_path self)).
  assert (Hrun : add_mood_record w date_input mood_input self =
                 (Ok (RecordAdded date n
                        (match fst (get_poem_by_mood w n self') with
                         | Ok shown => shown
                         | Raise _ => None
                         end)
                        (match fst (check_mood_trends self') with
                         | Ok t => t
                         | Raise _ => NoTrend
                         end)), self')).
  { unfold add_mood_record, mbind at 1, get_self, try_with.
    unfold mbind at 1, lift at 1. rewrite Hint.
    replace ((1 <=? n) && (n <=? 10)) with true
      by (symmetry; apply andb_true_iff; split; apply Z.leb_le; lia).
    unfold mbind, modify, dates_append, moods_append.
    cbn [dates moods current_date db_path]. fold date. fold self'.
    destruct (get_poem_by_mood_total w n self') as [shown Hs]. rewrite Hs.
    destruct (check_mood_trends_total self') as [t Ht]. rewrite Ht.
    reflexivity. }
  rewrite Hrun. cbn [fst].
  do 3 eexists. split; [reflexivity|]. split; [|split].
  - rewrite !get_poem_by_mood_eq. reflexivity.
  - intros p a b Hm. unfold self'. rewrite Hm, <- app_assoc.
    cbn [app]. now rewrite check_mood_trends_app.
  - intros Hshort. rewrite check_mood_trends_short; [reflexivity|].
    unfold self'. cbn [moods]. rewrite length_app. cbn [List.length]. lia.
Qed.

(** The scores 3 and 2, then "4": the third low score in a row. *)
Lemma add_mood_record_shows_witness :
  exists (date : string) (shown : option poem) (t : trend),
    fst (add_mood_record Sample.march_1 "" "4"
           (mk_session ["d1"; "d2"; "d3"]%string [8; 3; 2] "2024-03-01"
              "poems.db"))
      = Ok (RecordAdded date 4 shown t) /\
    t = LowStreak.
Proof.
  assert (Hrange : 1 <= 4 <= 10) by lia.
  destruct (add_mood_record_shows Sample.march_1 "" "4"
              (mk_session ["d1"; "d2"; "d3"]%string [8; 3; 2] "2024-03-01"
                 "poems.db") 4 eq_refl Hrange)
    as (date & shown & t & Hfst & _ & Htrend & _).
  exists date, shown, t. split; [exact Hfst|].
  exact (Htrend [8] 3 2 eq_refl).
Defined.

(** X18.  The first poem that suits is the one returned.  When the reply
    to request number [i], one of the first 20, gives a poem of fewer than
    1000 lines, and every earlier reply was unsuitable or failed with an
    exception that the [except] clause names, [get_random_poem] returns
    the poem of that reply after exactly [i + 1] requests. *)
Theorem get_random_poem_first_suitable (w : world) (self : session)
    (i : nat) (p : fetched_poem) :
  (i < max_attempts)%nat ->
  (forall j, (j < i)%nat ->
     try_block (remote w j) = Ok None \/
     exists e, try_block (remote w j) = Raise e /\ fetch_handled e = true) ->
  try_block (remote w i) = Ok (Some p) ->
  get_random_poem w self = (Ok (Some p), self) /\
  requests_made w = S i.
Proof.
  intros Hi Hbefore Hsuits.
  unfold get_random_poem, requests_made, lift.
  destruct (fetch_loop_spec (remote w) 0 0) as (Hb & Hres & Hprev).
  assert (Hnot : ~ (try_block (remote w i) = Ok None \/
                    exists e, try_block (remote w i) = Raise e /\
                              fetch_handled e = true)).
  { rewrite Hsuits. intros [H | (e & H & _)]; discriminate. }
  destruct (fst (fetch_loop (remote w) 0 0)) as [[q|]|e] eqn:E.
  - destruct Hres as (k & Hk & Htry).
    destruct (lt_eq_lt_dec k i) as [[Hlt | Heq] | Hgt].
    + destruct (Hbefore k Hlt) as [H | (e & H & _)]; congruence.
    + subst k. rewrite Hsuits in Htry. inversion Htry. subst q.
      split; [reflexivity | exact Hk].
    + exfalso. apply Hnot, Hprev; [lia|]. left. lia.
  - exfalso. apply Hnot, Hprev; [lia|]. right.
    split; [|reflexivity]. unfold max_attempts in *. lia.
  - destruct Hres as (Hnh & k & Hk & Htry).
    destruct (lt_eq_lt_dec k i) as [[Hlt | Heq] | Hgt].
    + destruct (Hbefore k Hlt) as [H | (e' & H & Hh)]; [congruence|].
      rewrite H in Htry. inversion Htry. congruence.
    + subst k. congruence.
    + exfalso. apply Hnot, Hprev; [lia|]. left. lia.
Qed.

(** A time-out, a poem of 2000 lines, then a sonnet. *)
Lemma get_random_poem_first_suitable_witness :
  get_random_poem sonnet_world (mk_session [] [] "2024-03-01" "poems.db") =
  (Ok (Some (mk_fetched (JStr "Sonnet 18") (JStr "Unknown") (JArr []))),
   mk_session [] [] "2024-03-01" "poems.db").
Proof.
  assert (Hi : (2 < max_attempts)%nat) by (unfold max_attempts; lia).
  assert (Hbefore : forall j, (j < 2)%nat ->
            try_block (remote sonnet_world j) = Ok None \/
            exists e, try_block (remote sonnet_world j) = Raise e /\
                      fetch_handled e = true).
  { intros j Hj. destruct j as [|[|j]]; [| |lia].
    - right. exists RequestException. now split.
    - now left. }
  exact (proj1 (get_random_poem_first_suitable sonnet_world
                  (mk_session [] [] "2024-03-01" "poems.db") 2
                  (mk_fetched (JStr "Sonnet 18") (JStr "Unknown") (JArr []))
                  Hi Hbefore eq_refl)).
Defined.

End Shown.
